(** * decimal128.js: a shallow embedding of the digit-string engine and of
    the Decimal128 value type, with the properties checked against it.

    The development follows the three source modules:
    - [Common]       <- src/common.mts
    - [DigitString]  <- src/digitString.mts
    - [Decimal128]   <- src/decimal128.mts
    The module [Rational] stands for rational.mts, which the two classes
    import; see the comment there.

    JavaScript strings are modelled by [string] (the four accepted
    grammars accept ASCII text only), JavaScript numbers that hold integers
    by [Z], and exceptions by the error monad [result]. *)

From Stdlib Require Import ZArith List String Ascii Bool Lia DecimalString.
Import ListNotations.
Local Open Scope string_scope.
Local Open Scope Z_scope.

(** ** Exceptions *)

(** The four error classes the sources throw.  The message keeps the
    static part of the source's template string. *)
Inductive exn : Type :=
| SyntaxError (msg : string)
| RangeError (msg : string)
| TypeError (msg : string)
| Error (msg : string).

Inductive result (A : Type) : Type :=
| Ok (a : A)
| Throw (e : exn).
Arguments Ok {A} a.
Arguments Throw {A} e.

Definition bind {A B : Type} (c : result A) (k : A -> result B) : result B :=
  match c with
  | Ok a => k a
  | Throw e => Throw e
  end.

Notation "x <- c ;; k" := (bind c (fun x => k))
  (at level 61, c at next level, right associativity).

Fixpoint mapM {A B : Type} (f : A -> result B) (l : list A) : result (list B) :=
  match l with
  | [] => Ok []
  | a :: l' => b <- f a ;; bs <- mapM f l' ;; Ok (b :: bs)
  end.

(** ** JavaScript primitives used by the sources *)

Module JS.

(** A number-valued slot as the code can see it at run time: an integer,
    [NaN] (from [parseInt] or from [undefined + 1]) or [undefined] (an
    array read past the end). *)
Inductive jsval : Type :=
| JNum (z : Z)
| JNaN
| JUndefined.

(** [v + 1] *)
Definition succ (v : jsval) : jsval :=
  match v with
  | JNum z => JNum (z + 1)
  | JNaN | JUndefined => JNaN
  end.

(** [v >= k], [v > k], [v === k] and [v % 2 === 0] for a number [k]:
    every comparison with [NaN] or [undefined] is false. *)
Definition geb (v : jsval) (k : Z) : bool :=
  match v with JNum z => k <=? z | _ => false end.
Definition gtb (v : jsval) (k : Z) : bool :=
  match v with JNum z => k <? z | _ => false end.
Definition eqb (v : jsval) (k : Z) : bool :=
  match v with JNum z => z =? k | _ => false end.
Definition is_even (v : jsval) : bool :=
  match v with JNum z => Z.rem z 2 =? 0 | _ => false end.

(** [String(z)] for an integer-valued number. *)
Definition Z_to_string (z : Z) : string :=
  NilZero.string_of_int (Z.to_int z).

(** The template string [`${v}`]. *)
Definition to_string (v : jsval) : string :=
  match v with
  | JNum z => Z_to_string z
  | JNaN => "NaN"
  | JUndefined => "undefined"
  end.

Definition is_digit (c : ascii) : bool :=
  let n := N_of_ascii c in ((48 <=? n) && (n <=? 57))%N.

Definition digit_value (c : ascii) : Z := Z.of_N (N_of_ascii c) - 48.

(** [s.length] *)
Definition length (s : string) : Z := Z.of_nat (String.length s).

(** [s.charAt(i)]: the empty string when [i] is out of range. *)
Definition charAt (s : string) (i : Z) : string :=
  if (i <? 0) || (length s <=? i) then ""
  else match String.get (Z.to_nat i) s with
       | Some c => String c ""
       | None => ""
       end.

Definition clamp (s : string) (i : Z) : Z := Z.max 0 (Z.min i (length s)).

(** [s.substring(i, j)]: both indices are clamped to [0, s.length] and
    swapped when [i > j]. *)
Definition substring (s : string) (i j : Z) : string :=
  let a := clamp s i in
  let b := clamp s j in
  let lo := Z.min a b in
  let hi := Z.max a b in
  String.substring (Z.to_nat lo) (Z.to_nat (hi - lo)) s.

(** [s.substring(i)] *)
Definition substring_from (s : string) (i : Z) : string :=
  substring s i (length s).

(** [s.repeat(n)].  Every call in the sources is guarded so that the
    count is a non-negative integer; the count is taken as a [nat]. *)
Fixpoint repeat (s : string) (n : nat) : string :=
  match n with
  | O => ""
  | S n' => s ++ repeat s n'
  end.

(** [s.split(sep)] for a one-character separator (also [/[.]/] and
    [/[eE]/], given as a predicate).  [split] always returns at least one
    piece, so the result is the first piece and the list of the others;
    the destructuring [let [a, b] = s.split(...)] reads the first piece
    and [hd_error] of the others. *)
Fixpoint split_on (sep : ascii -> bool) (s : string) : string * list string :=
  match s with
  | EmptyString => ("", [])
  | String c s' =>
      let '(p, ps) := split_on sep s' in
      if sep c then ("", p :: ps) else (String c p, ps)
  end.

Definition is_dot (c : ascii) : bool := Ascii.eqb c ".".
Definition is_e (c : ascii) : bool := Ascii.eqb c "e" || Ascii.eqb c "E".

(** [arr.join("")] for an array of integers. *)
Definition join (l : list Z) : string :=
  String.concat "" (map Z_to_string l).

(** The digits at the front of a string, as a number (most significant
    first), with how many there were. *)
Fixpoint digit_prefix (s : string) (acc : Z) (n : nat) : Z * nat :=
  match s with
  | EmptyString => (acc, n)
  | String c s' =>
      if is_digit c then digit_prefix s' (10 * acc + digit_value c) (S n)
      else (acc, n)
  end.

(** [parseInt(s)]: an optional sign, then the longest run of decimal
    digits; [NaN] when there is none.  (Leading white space and the hex
    prefix, which [parseInt] also accepts, occur at no call site: the
    argument is one character of a digit string or the exponent matched
    by [exponentRegExp].  The result is exact; the loss of precision of
    a double above 2^53 is outside the model.) *)
Definition parseInt (s : string) : jsval :=
  let unsigned (t : string) (sign : Z) :=
    match digit_prefix t 0 O with
    | (_, O) => JNaN
    | (v, _) => JNum (sign * v)
    end in
  match s with
  | String "-" t => unsigned t (-1)
  | String "+" t => unsigned t 1
  | _ => unsigned s 1
  end.

Fixpoint all_digits (s : string) : bool :=
  match s with
  | EmptyString => true
  | String c s' => is_digit c && all_digits s'
  end.

(** [BigInt(s)]: the empty string is [0n]; a string that is not an
    optionally signed run of digits is a SyntaxError. *)
Definition BigInt (s : string) : result Z :=
  let unsigned (t : string) (sign : Z) :=
    match t with
    | EmptyString => Throw (SyntaxError "Cannot convert to a BigInt")
    | _ => if all_digits t then Ok (sign * fst (digit_prefix t 0 O))
           else Throw (SyntaxError "Cannot convert to a BigInt")
    end in
  match s with
  | EmptyString => Ok 0
  | String "-" t => unsigned t (-1)
  | String "+" t => unsigned t 1
  | _ => unsigned s 1
  end.

(** [s.replace(/_/g, "")] *)
Fixpoint remove_underscores (s : string) : string :=
  match s with
  | EmptyString => ""
  | String c s' =>
      if Ascii.eqb c "_" then remove_underscores s'
      else String c (remove_underscores s')
  end.

(** [s.match(/^-/)] *)
Definition starts_with_minus (s : string) : bool :=
  match s with String "-" _ => true | _ => false end.

(** [s.match(/^0[.]/)] *)
Definition starts_with_zero_dot (s : string) : bool :=
  match s with String "0" (String "." _) => true | _ => false end.

(** [s.match(/[.]/)] *)
Fixpoint has_dot (s : string) : bool :=
  match s with
  | EmptyString => false
  | String c s' => is_dot c || has_dot s'
  end.

(** [s.replace(/[.]/, "")]: the first point is removed. *)
Fixpoint remove_first_dot (s : string) : string :=
  match s with
  | EmptyString => ""
  | String c s' => if is_dot c then s' else String c (remove_first_dot s')
  end.

(** [s.replace(/^0+/, "")] *)
Fixpoint strip_leading_zeros (s : string) : string :=
  match s with
  | String "0" s' => strip_leading_zeros s'
  | _ => s
  end.

(** [s.match(/^0+/)] *)
Definition starts_with_zero (s : string) : bool :=
  match s with String "0" _ => true | _ => false end.

(** The zeros at the front of [s]: the text matched by [/^0*/]. *)
Fixpoint leading_zeros (s : string) : string :=
  match s with
  | String "0" s' => String "0" (leading_zeros s')
  | _ => ""
  end.

(** [s.match(/0+$/)]: the matched text [m[0]] is the run of zeros that
    ends the string; no match when the string does not end in [0]. *)
Fixpoint trailing_zeros (s : string) : string :=
  match s with
  | EmptyString => ""
  | String c s' =>
      let t := trailing_zeros s' in
      if Ascii.eqb c "0" && String.eqb t s' then String c t else t
  end.

Definition match_trailing_zeros (s : string) : option string :=
  match trailing_zeros s with
  | EmptyString => None
  | t => Some t
  end.

(** [s.replace(/0+$/, "")] *)
Definition strip_trailing_zeros (s : string) : string :=
  String.substring 0 (String.length s - String.length (trailing_zeros s)) s.

(** [s.match(/[.]0+/)]: the leftmost point that is followed by a zero,
    with all the zeros that follow it. *)
Fixpoint match_dot_zeros (s : string) : option string :=
  match s with
  | EmptyString => None
  | String c s' =>
      if is_dot c && starts_with_zero s'
      then Some (String c (leading_zeros s'))
      else match_dot_zeros s'
  end.

End JS.

(** ** Regular expressions *)

(** The constructor's four grammars are kept as regular expressions and
    matched by derivatives; all four are anchored at both ends, so a
    match is a match of the whole string.  Alternatives are kept free of
    duplicates, which keeps the derivatives small. *)
Module Regex.

(** A character class: one character, a range, or a letter in either
    case (the [i] flag). *)
Inductive cls : Type :=
| COne (c : ascii)
| CRange (lo hi : ascii)
| CEither (lower upper : ascii).

Definition cls_mem (k : cls) (c : ascii) : bool :=
  match k with
  | COne a => Ascii.eqb c a
  | CRange lo hi =>
      let n := N_of_ascii c in
      ((N_of_ascii lo <=? n) && (n <=? N_of_ascii hi))%N
  | CEither lower upper => Ascii.eqb c lower || Ascii.eqb c upper
  end.

Definition cls_eqb (k1 k2 : cls) : bool :=
  match k1, k2 with
  | COne a, COne b => Ascii.eqb a b
  | CRange a b, CRange c d => Ascii.eqb a c && Ascii.eqb b d
  | CEither a b, CEither c d => Ascii.eqb a c && Ascii.eqb b d
  | _, _ => false
  end.

Inductive regex : Type :=
| Void
| Eps
| Cls (k : cls)
| Seq (r1 r2 : regex)
| Alt (r1 r2 : regex)
| Star (r : regex).

Fixpoint regex_eqb (r s : regex) : bool :=
  match r, s with
  | Void, Void => true
  | Eps, Eps => true
  | Cls k1, Cls k2 => cls_eqb k1 k2
  | Seq a b, Seq c d => regex_eqb a c && regex_eqb b d
  | Alt a b, Alt c d => regex_eqb a c && regex_eqb b d
  | Star a, Star b => regex_eqb a b
  | _, _ => false
  end.

Fixpoint nullable (r : regex) : bool :=
  match r with
  | Void => false
  | Eps => true
  | Cls _ => false
  | Seq r1 r2 => nullable r1 && nullable r2
  | Alt r1 r2 => nullable r1 || nullable r2
  | Star _ => true
  end.

Definition seq (r1 r2 : regex) : regex :=
  match r1, r2 with
  | Void, _ => Void
  | _, Void => Void
  | Eps, _ => r2
  | _, _ => Seq r1 r2
  end.

(** [r] is one of the alternatives of [alts]. *)
Fixpoint alt_mem (r alts : regex) : bool :=
  match alts with
  | Alt a b => regex_eqb r a || alt_mem r b
  | _ => regex_eqb r alts
  end.

Fixpoint alt (r1 r2 : regex) : regex :=
  match r1 with
  | Void => r2
  | Alt a b => alt a (alt b r2)
  | _ =>
      match r2 with
      | Void => r1
      | _ => if alt_mem r1 r2 then r2 else Alt r1 r2
      end
  end.

Fixpoint deriv (c : ascii) (r : regex) : regex :=
  match r with
  | Void => Void
  | Eps => Void
  | Cls k => if cls_mem k c then Eps else Void
  | Seq r1 r2 =>
      if nullable r1 then alt (seq (deriv c r1) r2) (deriv c r2)
      else seq (deriv c r1) r2
  | Alt r1 r2 => alt (deriv c r1) (deriv c r2)
  | Star r1 => seq (deriv c r1) (Star r1)
  end.

Fixpoint matches (r : regex) (s : string) : bool :=
  match s with
  | EmptyString => nullable r
  | String c s' => matches (deriv c r) s'
  end.

Definition Opt (r : regex) : regex := Alt r Eps.
Definition Plus (r : regex) : regex := Seq r (Star r).
Definition Chr (c : ascii) : regex := Cls (COne c).
Definition ChrI (lower upper : ascii) : regex := Cls (CEither lower upper).
Definition range (lo hi : ascii) : regex := Cls (CRange lo hi).

Fixpoint seqs (l : list regex) : regex :=
  match l with
  | [] => Eps
  | [r] => r
  | r :: l' => Seq r (seqs l')
  end.

End Regex.

(** ** src/common.mts *)

Module Common.

(** [type RoundingMode]: the nine string constants. *)
Inductive RoundingMode : Type :=
| ROUNDING_MODE_CEILING
| ROUNDING_MODE_FLOOR
| ROUNDING_MODE_EXPAND
| ROUNDING_MODE_TRUNCATE
| ROUNDING_MODE_HALF_EVEN
| ROUNDING_MODE_HALF_EXPAND
| ROUNDING_MODE_HALF_CEILING
| ROUNDING_MODE_HALF_FLOOR
| ROUNDING_MODE_HALF_TRUNCATE.

(** [type Digit = -1 | 0 | ... | 9] *)
Definition Digit : Type := Z.

(** [countSignificantDigits(s)]; the only recursive call strips a
    leading minus sign. *)
Fixpoint countSignificantDigits (s : string) : Z :=
  match s with
  | String "-" s' => countSignificantDigits s'
  | _ =>
      if JS.starts_with_zero_dot s then
        match JS.match_dot_zeros s with
        | Some m0 => JS.length s - JS.length m0 - 1
        | None => JS.length s - 2
        end
      else if JS.has_dot s then JS.length s - 1
      else
        match JS.match_trailing_zeros s with
        | Some m0 => JS.length s - JS.length m0
        | None => JS.length s
        end
  end.

End Common.

(** ** rational.mts *)

(** The class [Rational] is imported by both sources but its file is not
    part of the sources at hand.  What the specification fixes about it
    is modelled here; [toDecimalPlaces], whose rendering the
    specification leaves open, is a parameter of the arithmetic of
    [Decimal128] below. *)
Module Rational.

(** Modelled from the spec: the missing class [Rational], "a pair of
    arbitrary-precision integers (numerator, denominator)", built by
    [new Rational(p, q)]. *)
Record t : Type := mk { numerator : Z; denominator : Z }.

(** Modelled from the spec: the missing [Rational.add], "standard exact
    fraction arithmetic via cross-multiplication". *)
Definition add (a b : t) : t :=
  mk (numerator a * denominator b + numerator b * denominator a)
     (denominator a * denominator b).

(** Modelled from the spec: the missing [Rational.subtract], by
    cross-multiplication. *)
Definition subtract (a b : t) : t :=
  mk (numerator a * denominator b - numerator b * denominator a)
     (denominator a * denominator b).

(** Modelled from the spec: the missing [Rational.multiply]. *)
Definition multiply (a b : t) : t :=
  mk (numerator a * numerator b) (denominator a * denominator b).

(** Modelled from the spec: the missing [Rational.divide], by
    cross-multiplication. *)
Definition divide (a b : t) : t :=
  mk (numerator a * denominator b) (denominator a * numerator b).

(** Modelled from the spec: the missing [Rational.cmp], "total order via
    cross-multiplication sign comparison": -1, 0 or 1, the sign of the
    difference of the cross products. *)
Definition cmp (a b : t) : Z :=
  Z.sgn (numerator a * denominator b - numerator b * denominator a).

(** The value of a rational equals that of another one. *)
Definition same_value (a b : t) : Prop :=
  numerator a * denominator b = numerator b * denominator a.

End Rational.

(** ** src/digitString.mts *)

Module DigitString.
Import Common.

(** [integerCharToDigit(c)]: the argument is one character of a string
    that was split into characters. *)
Definition integerCharToDigit (c : ascii) : result Digit :=
  match c with
  | "0"%char => Ok 0
  | "1"%char => Ok 1
  | "2"%char => Ok 2
  | "3"%char => Ok 3
  | "4"%char => Ok 4
  | "5"%char => Ok 5
  | "6"%char => Ok 6
  | "7"%char => Ok 7
  | "8"%char => Ok 8
  | "9"%char => Ok 9
  | _ => Throw (Error "Not a digit")
  end.

(** [explodeDigits(s)]: [s.split("").map(integerCharToDigit)] *)
Definition explodeDigits (s : string) : result (list Digit) :=
  mapM integerCharToDigit (list_ascii_of_string s).

(** [roundIt(isNegative, digitToRound, decidingDigit, roundingMode)].
    The two digits are typed [Digit], but [Decimal128.round] passes an
    array read that can be [undefined], and [handleDecimalNotation] a
    [parseInt] that can be [NaN]; hence [JS.jsval].  The [default] branch
    of the [switch] is closed off by the type [RoundingMode]. *)
Definition roundIt (isNegative : bool) (digitToRound decidingDigit : JS.jsval)
    (roundingMode : RoundingMode) : JS.jsval :=
  match roundingMode with
  | ROUNDING_MODE_CEILING =>
      if isNegative then digitToRound else JS.succ digitToRound
  | ROUNDING_MODE_FLOOR =>
      if isNegative then JS.succ digitToRound else digitToRound
  | ROUNDING_MODE_EXPAND => JS.succ digitToRound
  | ROUNDING_MODE_TRUNCATE => digitToRound
  | ROUNDING_MODE_HALF_CEILING =>
      if JS.geb decidingDigit 5 then
        if isNegative then digitToRound else JS.succ digitToRound
      else digitToRound
  | ROUNDING_MODE_HALF_FLOOR =>
      if JS.eqb decidingDigit 5 then
        if isNegative then JS.succ digitToRound else digitToRound
      else if JS.gtb decidingDigit 5 then JS.succ digitToRound
      else digitToRound
  | ROUNDING_MODE_HALF_TRUNCATE =>
      if JS.eqb decidingDigit 5 then digitToRound
      else if JS.gtb decidingDigit 5 then JS.succ digitToRound
      else digitToRound
  | ROUNDING_MODE_HALF_EXPAND =>
      if JS.geb decidingDigit 5 then JS.succ digitToRound else digitToRound
  | ROUNDING_MODE_HALF_EVEN =>
      if JS.eqb decidingDigit 5 then
        if JS.is_even digitToRound then digitToRound
        else JS.succ digitToRound
      else if JS.gtb decidingDigit 5 then JS.succ digitToRound
      else digitToRound
  end.

(** [class DigitString] *)
Record t : Type := mk { lhs : list Digit; rhs : list Digit }.

(** [constructor(lhs, rhs)] *)
Definition new (l r : string) : result t :=
  ld <- explodeDigits l ;;
  rd <- explodeDigits r ;;
  Ok (mk ld rd).

Definition toString (this : t) : string :=
  let renderedLhs := JS.join (lhs this) in
  let renderedRhs := JS.join (rhs this) in
  if String.eqb "" renderedLhs then "0." ++ renderedRhs
  else renderedLhs ++ "." ++ renderedRhs.

(** [round(finalDigit, mode)].  [toString()] always holds a point, so
    the second piece of the split exists; were it missing, [rhs + "0"]
    would be the text ["undefined0"]. *)
Definition round (this : t) (finalDigit : JS.jsval) (mode : RoundingMode)
    : result t :=
  let '(l, rest) := JS.split_on JS.is_dot (toString this) in
  let r := match hd_error rest with Some r => r | None => "undefined" end in
  let newRhs := r ++ "0" in
  let newFinalDigit :=
    roundIt false finalDigit (JS.parseInt (JS.charAt newRhs 0)) mode in
  new l (JS.substring_from newRhs 1 ++ JS.to_string newFinalDigit).

Definition significand (this : t) : list Digit := lhs this ++ rhs this.

Definition exponent (this : t) : Z := Z.of_nat (List.length (lhs this)).

Definition countSignificantDigits (this : t) : Z :=
  Z.of_nat (List.length (lhs this)) + Z.of_nat (List.length (rhs this)).

(** [1 === this.lhs.length && 1 === this.lhs[0]] *)
Definition isPowerOfTen (this : t) : bool :=
  match lhs this with
  | [d] => d =? 1
  | _ => false
  end.

(** [toRational()].  [sig + "0"] concatenates the decimal text of the
    BigInt [sig] with ["0"].  The exponents of [**] are non-negative on
    the branches that reach them. *)
Definition toRational (this : t) : result Rational.t :=
  let exp := exponent this in
  sig <- JS.BigInt (JS.join (significand this)) ;;
  if isPowerOfTen this then
    if exp <? 0 then
      d <- JS.BigInt ("1" ++ JS.repeat "0" (Z.to_nat (0 - exp))) ;;
      Ok (Rational.mk 1 d)
    else if exp =? 0 then Ok (Rational.mk sig 1)
    else
      n <- JS.BigInt ("1" ++ JS.repeat "0" (Z.to_nat exp)) ;;
      Ok (Rational.mk n 1)
  else if exp <? 0 then Ok (Rational.mk sig (1 ^ (0 - exp)))
  else if exp =? 1 then
    n <- JS.BigInt (JS.Z_to_string sig ++ "0") ;;
    Ok (Rational.mk n 1)
  else if sig =? 0 then Ok (Rational.mk 0 1)
  else Ok (Rational.mk sig (10 ^ exp)).

Definition isInteger (this : t) : bool := 0 <=? exponent this.

(** The value the specification asks of [toRational]: the significand,
    the integer spelled by both digit parts, times ten to the power
    [exponent - countSignificantDigits].  That power is never positive,
    so the value is the fraction below. *)
Definition specified_value (this : t) : result Rational.t :=
  sig <- JS.BigInt (JS.join (significand this)) ;;
  Ok (Rational.mk sig (10 ^ (countSignificantDigits this - exponent this))).

(** [propagateCarryFromRight(s)].  Every recursive call is on a
    strictly shorter text; as for [significand] in decimal128.mts the
    recursion runs on a counter that starts above the length of the
    text.  ([left_] and [right_] are the source's [left] and [right].) *)
Fixpoint propagateCarryFromRight_rec (fuel : nat) (s : string) : string :=
  match fuel with
  | O => s
  | S fuel' =>
      let '(left_, rest) := JS.split_on JS.is_dot s in
      match hd_error rest with
      | None =>
          let lastDigit :=
            JS.parseInt (JS.charAt left_ (JS.length left_ - 1)) in
          if JS.eqb lastDigit 9 then
            if 1 =? JS.length left_ then "10"
            else
              propagateCarryFromRight_rec fuel'
                (JS.substring left_ 0 (JS.length left_ - 1)) ++ "0"
          else
            JS.substring left_ 0 (JS.length left_ - 1)
            ++ JS.to_string (JS.succ lastDigit)
      | Some right_ =>
          let len := JS.length right_ in
          if 1 =? len then propagateCarryFromRight_rec fuel' left_ ++ ".0"
          else
            let finalDigit := JS.parseInt (JS.charAt right_ (len - 1)) in
            if JS.eqb finalDigit 9 then
              propagateCarryFromRight_rec fuel'
                (left_ ++ "." ++ JS.substring right_ 0 (len - 1)) ++ "0"
            else
              left_ ++ "." ++ JS.substring right_ 0 (len - 1)
              ++ JS.to_string
                   (JS.succ (JS.parseInt (JS.charAt right_ (len - 1))))
      end
  end.

Definition propagateCarryFromRight (s : string) : string :=
  propagateCarryFromRight_rec (S (String.length s)) s.

End DigitString.

(** ** src/decimal128.mts *)

Module Decimal128.
Import Common.

Definition EXPONENT_MIN : Z := -6143.
Definition EXPONENT_MAX : Z := 6144.
Definition MAX_SIGNIFICANT_DIGITS : Z := 34.

(** [significand(s)].  Every recursive call is on a strictly shorter
    string; the recursion is driven by a counter that [significand]
    starts above the length of the string (see
    [significand_rec_enough]). *)
Fixpoint significand_rec (fuel : nat) (s : string) : string :=
  match fuel with
  | O => s
  | S fuel' =>
      if JS.starts_with_minus s then
        significand_rec fuel' (JS.substring_from s 1)
      else if JS.starts_with_zero_dot s then
        significand_rec fuel' (JS.substring_from s 2)
      else if JS.has_dot s then
        significand_rec fuel' (JS.remove_first_dot s)
      else if JS.starts_with_zero s then
        significand_rec fuel' (JS.strip_leading_zeros s)
      else
        match JS.match_trailing_zeros s with
        | Some _ => significand_rec fuel' (JS.strip_trailing_zeros s)
        | None => s
        end
  end.

Definition significand (s : string) : string :=
  significand_rec (S (String.length s)) s.

(** [exponent(s)].  [s.split(".")[1]] is read only when [s] holds a
    point; reading [length] of a missing piece would be a TypeError. *)
Fixpoint exponent (s : string) : result Z :=
  match s with
  | String "-" s' => exponent s'
  | _ =>
      if JS.has_dot s then
        match hd_error (snd (JS.split_on JS.is_dot s)) with
        | Some rhs => Ok (0 - JS.length rhs)
        | None => Throw (TypeError "Cannot read properties of undefined")
        end
      else if String.eqb s "0" then Ok 0
      else
        match JS.match_trailing_zeros s with
        | Some m0 => Ok (JS.length m0)
        | None => Ok 0
        end
  end.

(** [interface Decimal128Constructor]; the class [Decimal128] has the
    same four data fields, so one record serves for both. *)
Record t : Type := mk {
  isNaN : bool;
  isFinite : bool;
  digits : DigitString.t;
  isNegative : bool
}.

(** The module-level [isInteger(x)] *)
Definition isInteger_data (x : t) : bool :=
  negb (isNaN x) && isFinite x && (0 <=? DigitString.exponent (digits x)).

Definition validateConstructorData (x : t) : result unit :=
  if isNaN x then Ok tt
  else
    let numSigDigits := DigitString.countSignificantDigits (digits x) in
    let exp := DigitString.exponent (digits x) in
    if isInteger_data x && (MAX_SIGNIFICANT_DIGITS <? numSigDigits) then
      Throw (RangeError "Integer too large")
    else if EXPONENT_MAX <? exp then Throw (RangeError "Exponent too big")
    else if exp <? EXPONENT_MIN then Throw (RangeError "Exponent too small")
    else Ok tt.

Definition handleNan (s : string) : result t :=
  d <- DigitString.new "" "" ;;
  Ok (mk true false d (JS.starts_with_minus s)).

(** [convertExponentialStringToDecimalString(s)].  With a [NaN]
    exponent every comparison fails and both [substring] calls take
    the index as 0. *)
Definition convertExponentialStringToDecimalString (s : string) : string :=
  let '(lhs, rest) := JS.split_on JS.is_e s in
  let rhs := match hd_error rest with Some r => r | None => "undefined" end in
  match JS.parseInt rhs with
  | JS.JNum exp =>
      if exp <? 0 then
        "0." ++ JS.repeat "0" (Z.to_nat (Z.abs exp - 1))
             ++ JS.remove_first_dot lhs
      else if 0 =? exp then lhs
      else if JS.length lhs <=? exp then
        lhs ++ JS.repeat "0" (Z.to_nat (exp - JS.length lhs))
      else JS.substring lhs 0 exp ++ "." ++ JS.substring_from lhs exp
  | _ => JS.substring lhs 0 0 ++ "." ++ JS.substring_from lhs 0
  end.

Definition handleDecimalNotation (s : string) : result t :=
  let withoutUnderscores := JS.remove_underscores s in
  let isNegative := JS.starts_with_minus s in
  let withoutUnderscores :=
    if isNegative then JS.substring_from withoutUnderscores 1
    else withoutUnderscores in
  let sg := significand withoutUnderscores in
  exp <- exponent withoutUnderscores ;;
  let numSigDigits := countSignificantDigits withoutUnderscores in
  let isInteger := 0 <=? exp in
  let '(lhs, rest) := JS.split_on JS.is_dot withoutUnderscores in
  digits <- DigitString.new lhs
              (match hd_error rest with Some rhs => rhs | None => "" end) ;;
  digits <-
    (if negb isInteger && (MAX_SIGNIFICANT_DIGITS <? numSigDigits) then
       let lastDigit := JS.parseInt (JS.charAt sg MAX_SIGNIFICANT_DIGITS) in
       DigitString.round digits lastDigit ROUNDING_MODE_HALF_EVEN
     else Ok digits) ;;
  Ok (mk false true digits isNegative).

Definition handleExponentialNotation (s : string) : result t :=
  handleDecimalNotation (convertExponentialStringToDecimalString s).

Definition handleInfinity (s : string) : result t :=
  d <- DigitString.new "" "" ;;
  Ok (mk false false d (JS.starts_with_minus s)).

Definition ROUNDING_MODE_DEFAULT : RoundingMode := ROUNDING_MODE_HALF_EXPAND.

Import Regex.

Definition digit : regex := range "0" "9".
Definition nonzero_digit : regex := range "1" "9".

(** The source's [digitStrRegExp], token by token:
    [^ -? [0-9]+ (?: _? [0-9]+ )* (?: [.] [0-9] ( _? [0-9]+ )* )? $] *)
Definition digitStrRegExp : regex :=
  seqs [Opt (Chr "-"); Plus digit;
        Star (Seq (Opt (Chr "_")) (Plus digit));
        Opt (seqs [Chr "."; digit; Star (Seq (Opt (Chr "_")) (Plus digit))])].

(** The source's [exponentRegExp]:
    [^ -? [1-9] [0-9]* [eE] [-+]? [1-9] [0-9]* $] *)
Definition exponentRegExp : regex :=
  seqs [Opt (Chr "-"); nonzero_digit; Star digit; ChrI "e" "E";
        Opt (Alt (Chr "-") (Chr "+")); nonzero_digit; Star digit].

(** The source's [nanRegExp]: [^ -? nan $], letters in either case *)
Definition nanRegExp : regex :=
  seqs [Opt (Chr "-"); ChrI "n" "N"; ChrI "a" "A"; ChrI "n" "N"].

(** The source's [infRegExp]: [^ -? inf (inity)? $], letters in either
    case *)
Definition infRegExp : regex :=
  seqs [Opt (Chr "-"); ChrI "i" "I"; ChrI "n" "N"; ChrI "f" "F";
        Opt (seqs [ChrI "i" "I"; ChrI "n" "N"; ChrI "i" "I"; ChrI "t" "T";
                   ChrI "y" "Y"])].

(** [constructor(n)] *)
Definition new (n : string) : result t :=
  data <-
    (if matches nanRegExp n then handleNan n
     else if matches exponentRegExp n then handleExponentialNotation n
     else if matches digitStrRegExp n then handleDecimalNotation n
     else if matches infRegExp n then handleInfinity n
     else Throw (SyntaxError "Illegal number format")) ;;
  _ <- validateConstructorData data ;;
  Ok data.

(** The private [toRational()] *)
Definition toRational (this : t) : result Rational.t :=
  DigitString.toRational (digits this).

Definition toString (this : t) : string :=
  if isNaN this then "NaN"
  else if negb (isFinite this) then
    (if isNegative this then "-" else "") ++ "Infinity"
  else DigitString.toString (digits this).

Definition isInteger (this : t) : bool :=
  negb (isNaN this) && isFinite this
  && (0 <=? DigitString.exponent (digits this)).

Definition abs (this : t) : result t :=
  if isNegative this then new (JS.substring_from (toString this) 1)
  else Ok this.

(** [cmp(x)]: [None] is [undefined]. *)
Definition cmp (this x : t) : result (option Z) :=
  if isNaN this || isNaN x then Ok None
  else if negb (isFinite this) then
    if negb (isFinite x) then
      if Bool.eqb (isNegative this) (isNegative x) then Ok (Some 0)
      else Ok (Some (if isNegative this then -1 else 1))
    else if isNegative this then Ok (Some (-1))
    else Ok (Some 1)
  else if negb (isFinite x) then Ok (Some (if isNegative x then 1 else -1))
  else
    a <- toRational this ;;
    b <- toRational x ;;
    Ok (Some (Rational.cmp a b)).

Definition truncate (this : t) : result t :=
  if isNaN this then Ok this
  else new (fst (JS.split_on JS.is_dot (toString this))).


(** The private [isZero()] *)
Definition isZero (this : t) : bool :=
  negb (isNaN this) && isFinite this && DigitString.isInteger (digits this).

Definition negate (this : t) : result t :=
  let s := toString this in
  if JS.starts_with_minus s then new (JS.substring_from s 1)
  else new ("-" ++ s).

(** [Number.isSafeInteger(k)] for an integer [k] *)
Definition isSafeInteger (k : Z) : bool := Z.abs k <=? 2 ^ 53 - 1.

(** [this.digits.rhs[n]]: [undefined] past the end of the array. *)
Definition array_get (l : list Digit) (n : Z) : JS.jsval :=
  if n <? 0 then JS.JUndefined
  else match nth_error l (Z.to_nat n) with
       | Some d => JS.JNum d
       | None => JS.JUndefined
       end.

(** [round(numDecimalDigits, mode)], for an integer count. *)
Definition round (this : t) (numDecimalDigits : Z) (mode : RoundingMode)
    : result t :=
  if negb (isSafeInteger (numDecimalDigits + 1)) then
    Throw (TypeError
      "Argument for number of decimal digits must be a safe integer")
  else if numDecimalDigits <? 0 then
    Throw (RangeError
      "Argument for number of decimal digits must be non-negative")
  else if isNaN this then Ok this
  else if negb (isFinite this) then Ok this
  else if Z.of_nat (List.length (DigitString.rhs (digits this)))
          <? numDecimalDigits then Ok this
  else
    let decidingDigit :=
      array_get (DigitString.rhs (digits this)) numDecimalDigits in
    rounded <- DigitString.round (digits this) decidingDigit mode ;;
    new (DigitString.toString rounded).

Section Arithmetic.

(** [Rational.prototype.toDecimalPlaces(n)]: the text that the missing
    class renders for a rational at [n] significant digits. *)
Variable toDecimalPlaces : Rational.t -> Z -> string.

Definition add (this x : t) : result t :=
  if isNaN this || isNaN x then new "NaN"
  else if negb (isFinite this) then
    if negb (isFinite x) then
      if Bool.eqb (isNegative this) (isNegative x) then Ok this
      else new "NaN"
    else Ok this
  else if negb (isFinite x) then Ok x
  else
    a <- toRational this ;;
    b <- toRational x ;;
    let resultRat := Rational.add a b in
    new (toDecimalPlaces resultRat (MAX_SIGNIFICANT_DIGITS + 1)).

Definition subtract (this x : t) : result t :=
  if isNaN this || isNaN x then new "NaN"
  else if negb (isFinite this) then
    if negb (isFinite x) then
      if Bool.eqb (isNegative this) (isNegative x) then new "NaN"
      else Ok this
    else Ok this
  else if negb (isFinite x) then negate x
  else
    a <- toRational this ;;
    b <- toRational x ;;
    new (toDecimalPlaces (Rational.subtract a b) (MAX_SIGNIFICANT_DIGITS + 1)).

Definition multiply (this x : t) : result t :=
  if isNaN this || isNaN x then new "NaN"
  else if negb (isFinite this) then
    if isZero x then new "NaN"
    else if Bool.eqb (isNegative this) (isNegative x) then new "Infinity"
    else new "-Infinity"
  else if negb (isFinite x) then
    if isZero this then new "NaN"
    else if Bool.eqb (isNegative this) (isNegative x) then new "Infinity"
    else new "-Infinity"
  else
    a <- toRational this ;;
    b <- toRational x ;;
    let resultRat := Rational.multiply a b in
    new (toDecimalPlaces resultRat (MAX_SIGNIFICANT_DIGITS + 1)).

Definition divide (this x : t) : result t :=
  if isNaN this || isNaN x then new "NaN"
  else if isZero x then new "NaN"
  else if negb (isFinite this) then
    if negb (isFinite x) then new "NaN"
    else if Bool.eqb (isNegative this) (isNegative x) then new "Infinity"
    else if isNegative this then Ok this
    else new "-Infinity"
  else if negb (isFinite x) then
    if Bool.eqb (isNegative this) (isNegative x) then new "0"
    else new "-0"
  else
    a <- toRational this ;;
    b <- toRational x ;;
    new (toDecimalPlaces (Rational.divide a b) (MAX_SIGNIFICANT_DIGITS + 1)).

Definition ceil (this : t) : result t :=
  if isInteger this then Ok this
  else if isNegative this then truncate this
  else
    one <- new "1" ;;
    sum <- add this one ;;
    truncate sum.

Definition reciprocal (this : t) : result t :=
  one <- new "1" ;;
  divide one this.

(** [remainder(d)] calls itself on negated operands.  [depth] is the
    room left on the call stack: a recursion that does not end is a
    RangeError in JavaScript. *)
Fixpoint remainder (depth : nat) (this d : t) : result t :=
  match depth with
  | O => Throw (RangeError "Maximum call stack size exceeded")
  | S depth' =>
      if isNaN this || isNaN d then new "NaN"
      else if isNegative this then
        n <- negate this ;;
        r <- remainder depth' n d ;;
        negate r
      else if isNegative d then
        n <- negate d ;;
        remainder depth' this n
      else if negb (isFinite this) then new "NaN"
      else if negb (isFinite d) then Ok this
      else
        q0 <- divide this d ;;
        q <- round q0 0 ROUNDING_MODE_DEFAULT ;;
        p <- multiply d q ;;
        s <- subtract this p ;;
        abs s
  end.

(** What a call that loops has done after a bounded number of turns of
    its loop: it has returned or raised, or it is still running. *)
Inductive outcome : Type :=
| Done (r : result t)
| Running.

(** The [while] loop of [pow], run for at most [turns] turns. *)
Fixpoint pow_loop (turns : nat) (this n one i result : t) : outcome :=
  match cmp i n with
  | Throw e => Done (Throw e)
  | Ok c =>
      match c with
      | Some (-1) =>
          match turns with
          | O => Running
          | S turns' =>
              match multiply result this with
              | Throw e => Done (Throw e)
              | Ok result' =>
                  match add i one with
                  | Throw e => Done (Throw e)
                  | Ok i' => pow_loop turns' this n one i' result'
                  end
              end
          end
      | _ => Done (Ok result)
      end
  end.

(** [pow(n)].  The method calls itself on a negated exponent; [depth]
    is the room left on the call stack, as for [remainder]. *)
Fixpoint pow (depth turns : nat) (this n : t) : outcome :=
  match depth with
  | O => Done (Throw (RangeError "Maximum call stack size exceeded"))
  | S depth' =>
      if negb (isInteger n) then
        Done (Throw (TypeError "Exponent must be an integer"))
      else if isNegative n then
        match negate n with
        | Throw e => Done (Throw e)
        | Ok n' =>
            match pow depth' turns this n' with
            | Done (Ok r) => Done (reciprocal r)
            | other => other
            end
        end
      else
        match new "1" with
        | Throw e => Done (Throw e)
        | Ok one =>
            match new "0" with
            | Throw e => Done (Throw e)
            | Ok i => pow_loop turns this n one i one
            end
        end
  end.

End Arithmetic.

(** [toDecimalPlaces(n)], for an integer [n] (a number that is not an
    integer is a TypeError in the source).  With [n - 1] out of range
    [charAt] is empty and [parseInt] gives [NaN]. *)
Definition toDecimalPlaces (this : t) (n : Z) : result t :=
  if n <? 0 then Throw (RangeError "Argument must be non-negative")
  else
    let s := toString this in
    let '(lhs, rest) := JS.split_on JS.is_dot s in
    match hd_error rest with
    | None => new lhs
    | Some rhs =>
        if 0 =? n then new lhs
        else if JS.length rhs <=? n then new s
        else
          let penultimateDigit := JS.parseInt (JS.charAt rhs (n - 1)) in
          new (lhs ++ "." ++ JS.substring rhs 0 (n - 1)
                   ++ JS.to_string (JS.succ penultimateDigit))
    end.

End Decimal128.

(** ** Reference points of the specification *)

(** The tables and values that the properties below compare the code
    with. *)
Module Reference.
Import Common Decimal128.

(** The rounding-mode table of the specification: when the kept digit
    [d] is rounded up, given the sign [s] ([true] for negative) and the
    deciding digit [r]. *)
Definition table_rounds_up (mode : RoundingMode) (s : bool) (d r : Z) : bool :=
  match mode with
  | ROUNDING_MODE_CEILING => negb s
  | ROUNDING_MODE_FLOOR => s
  | ROUNDING_MODE_EXPAND => true
  | ROUNDING_MODE_TRUNCATE => false
  | ROUNDING_MODE_HALF_EXPAND => 5 <=? r
  | ROUNDING_MODE_HALF_CEILING => (5 <=? r) && negb s
  | ROUNDING_MODE_HALF_FLOOR => (5 <? r) || ((r =? 5) && s)
  | ROUNDING_MODE_HALF_TRUNCATE => 5 <? r
  | ROUNDING_MODE_HALF_EVEN => (5 <? r) || ((r =? 5) && Z.odd d)
  end.

(** The modes under which the digit 5 of [2.5], kept as a positive
    number with deciding digit 5, is raised to 6. *)
Definition table_rounds_up_5 (mode : RoundingMode) : bool :=
  table_rounds_up mode false 5 5.

(** The plain output form of the specification, [-?[0-9]+\.[0-9]+]. *)
Definition plainForm : Regex.regex :=
  Regex.seqs [Regex.Opt (Regex.Chr "-"); Regex.Plus digit; Regex.Chr ".";
              Regex.Plus digit].

(** The numeral that [new Decimal128("NaN")] builds. *)
Definition quietNaN : t := mk true false (DigitString.mk [] []) false.

Definition negativeNaN : t := mk true false (DigitString.mk [] []) true.

(** The errors of the parsing stage, before validation: a digit that is
    not one, or a read of a missing piece. *)
Definition parse_error (e : exn) : Prop :=
  e = Error "Not a digit" \/ exists msg, e = TypeError msg.

End Reference.

(** ** Running the grammars on digit strings *)

(** The derivatives of a grammar by the ten digits reach a handful of
    expressions; the sets that are reached are computed here, and the
    lemmas on literals below run the grammars through them. *)
Module Automaton.
Import Regex Decimal128.

Definition digit_chars : list ascii :=
  ["0"; "1"; "2"; "3"; "4"; "5"; "6"; "7"; "8"; "9"]%char.

(** The expression left after reading [s]. *)
Fixpoint after (r : regex) (s : string) : regex :=
  match s with
  | EmptyString => r
  | String c s' => after (deriv c r) s'
  end.

Fixpoint mem (r : regex) (l : list regex) : bool :=
  match l with
  | [] => false
  | x :: l' => regex_eqb r x || mem r l'
  end.

(** Every derivative of an expression of [A] by a character of [cs] is
    in [B]. *)
Definition goes (cs : list ascii) (A B : list regex) : bool :=
  forallb (fun r => forallb (fun c => mem (deriv c r) B) cs) A.

Fixpoint add_new (xs acc : list regex) : list regex :=
  match xs with
  | [] => acc
  | x :: xs' => if mem x acc then add_new xs' acc else add_new xs' (acc ++ [x])
  end.

Definition step (cs : list ascii) (A : list regex) : list regex :=
  add_new (flat_map (fun r => map (fun c => deriv c r) cs) A) [].

Fixpoint reach (n : nat) (cs : list ascii) (acc : list regex) : list regex :=
  match n with
  | O => acc
  | S n' => reach n' cs (add_new (step cs acc) acc)
  end.

(** After one digit or more, from a set of expressions. *)
Definition after_digits_of (A : list regex) : list regex :=
  reach 4 digit_chars (step digit_chars A).

(** The start of a grammar, before and after an optional minus sign. *)
Definition start (R : regex) : list regex := [R; deriv "-" R].

(** After the integer digits, after the point, after the fractional
    digits. *)
Definition int_states (R : regex) : list regex := after_digits_of (start R).
Definition point_states (R : regex) : list regex :=
  step ["."%char] (int_states R).
Definition frac_states (R : regex) : list regex :=
  after_digits_of (point_states R).

Definition grammars : list regex :=
  [nanRegExp; exponentRegExp; digitStrRegExp; infRegExp].

(** What the constructor does with a text that only [digitStrRegExp]
    matches. *)
Definition classified_decimal (n : string) : Prop :=
  matches nanRegExp n = false /\ matches exponentRegExp n = false
  /\ matches digitStrRegExp n = true.

(** A text that none of the four grammars matches. *)
Definition unclassified (n : string) : Prop :=
  matches nanRegExp n = false /\ matches exponentRegExp n = false
  /\ matches digitStrRegExp n = false /\ matches infRegExp n = false.

(** The computed sets are what their names say, for each grammar. *)
Definition well_run (R : regex) : bool :=
  goes digit_chars (start R) (int_states R)
  && goes digit_chars (int_states R) (int_states R)
  && goes ["."%char] (int_states R) (point_states R)
  && goes digit_chars (point_states R) (frac_states R)
  && goes digit_chars (frac_states R) (frac_states R).

Definition nonzero_chars : list ascii :=
  ["1"; "2"; "3"; "4"; "5"; "6"; "7"; "8"; "9"]%char.

Definition e_chars : list ascii := ["e"; "E"]%char.

(** Reading an exponential literal without signs: after the mantissa,
    after the marker, after the exponent. *)
Definition mantissa_states (R : regex) : list regex :=
  reach 4 digit_chars (step nonzero_chars [R]).
Definition marker_states (R : regex) : list regex :=
  step e_chars (mantissa_states R).
Definition exponent_states (R : regex) : list regex :=
  reach 4 digit_chars (step nonzero_chars (marker_states R)).

Definition well_run_exponential (R : regex) : bool :=
  goes nonzero_chars [R] (mantissa_states R)
  && goes digit_chars (mantissa_states R) (mantissa_states R)
  && goes e_chars (mantissa_states R) (marker_states R)
  && goes nonzero_chars (marker_states R) (exponent_states R)
  && goes digit_chars (exponent_states R) (exponent_states R).

(** A text of decimal digits that does not start with a zero. *)
Definition is_nonzero_first (s : string) : Prop :=
  match s with
  | EmptyString => False
  | String c s' => In c nonzero_chars /\ JS.all_digits s' = true
  end.

(** The text of an optional minus sign. *)
Definition sign (negative : bool) : string := if negative then "-" else "".

End Automaton.

(** ** Shapes of numerals *)

Module Shapes.
Import Common Decimal128.

(** Every digit of the list is in 0-9. *)
Definition is_digits (ds : list Digit) : Prop :=
  Forall (fun d => 0 <= d <= 9) ds.

(** The finite numeral with the given sign and digits. *)
Definition finite (negative : bool) (dl dr : list Digit) : t :=
  mk false true (DigitString.mk dl dr) negative.

(** The infinity with the given sign, as the constructor builds it. *)
Definition infinity (negative : bool) : t :=
  mk false false (DigitString.mk [] []) negative.

(** The digits that the text of a rounded digit [v] in 0-10 holds. *)
Definition digits_of_rounded (v : Z) : list Digit :=
  if v =? 10 then [1; 0] else [v].

(** The number that a text of digits spells. *)
Definition spelled (s : string) : Z := fst (JS.digit_prefix s 0 0).

End Shapes.

(** ** The recursion of [significand] ends *)

Module SignificandTermination.
Import Decimal128.

Local Open Scope nat_scope.

Lemma substring_all (s : string) :
  String.substring 0 (String.length s) s = s.
Proof.
  induction s as [|c s IH]; simpl; [reflexivity | now rewrite IH].
Qed.

Lemma length_substring_prefix (s : string) (n : nat) :
  String.length (String.substring 0 n s) = Nat.min n (String.length s).
Proof.
  revert n; induction s as [|c s IH]; intros [|n]; simpl; auto.
Qed.

Lemma length_substring_drop (s : string) (k : nat) :
  String.length (String.substring k (String.length s - k) s)
  = String.length s - k.
Proof.
  revert k; induction s as [|c s IH]; intros [|k]; simpl; auto.
  - now rewrite length_substring_prefix, Nat.min_id.
Qed.

Lemma length_substring_from (s : string) (k : nat) :
  String.length (JS.substring_from s (Z.of_nat k))
  = String.length s - k.
Proof.
  unfold JS.substring_from, JS.substring, JS.clamp, JS.length.
  set (n := String.length s).
  destruct (Nat.le_gt_cases k n) as [Hle | Hgt].
  - replace (Z.max 0 (Z.min (Z.of_nat k) (Z.of_nat n))) with (Z.of_nat k) by lia.
    replace (Z.max 0 (Z.min (Z.of_nat n) (Z.of_nat n))) with (Z.of_nat n) by lia.
    replace (Z.min (Z.of_nat k) (Z.of_nat n)) with (Z.of_nat k) by lia.
    replace (Z.max (Z.of_nat k) (Z.of_nat n)) with (Z.of_nat n) by lia.
    rewrite <- Nat2Z.inj_sub by exact Hle.
    rewrite !Nat2Z.id. apply length_substring_drop.
  - replace (Z.max 0 (Z.min (Z.of_nat k) (Z.of_nat n))) with (Z.of_nat n) by lia.
    replace (Z.max 0 (Z.min (Z.of_nat n) (Z.of_nat n))) with (Z.of_nat n) by lia.
    rewrite Z.min_id, Z.max_id, Z.sub_diag, Nat2Z.id.
    change (Z.to_nat 0) with 0.
    pose proof (length_substring_drop s n) as L.
    rewrite Nat.sub_diag in L. rewrite L. lia.
Qed.

Lemma length_remove_first_dot (s : string) :
  JS.has_dot s = true ->
  String.length (JS.remove_first_dot s) < String.length s.
Proof.
  induction s as [|c s IH]; simpl; [discriminate|].
  destruct (JS.is_dot c); simpl; intros H; [lia|].
  specialize (IH H). lia.
Qed.

Lemma length_strip_leading_zeros_le (s : string) :
  String.length (JS.strip_leading_zeros s) <= String.length s.
Proof.
  induction s as [|c s IH]; [simpl; lia|].
  cbn [JS.strip_leading_zeros].
  destruct (Ascii.eqb_spec c "0") as [->|Hc].
  - simpl. lia.
  - destruct c as [[] [] [] [] [] [] [] []]; simpl; try lia; congruence.
Qed.

Lemma length_strip_leading_zeros (s : string) :
  JS.starts_with_zero s = true ->
  String.length (JS.strip_leading_zeros s) < String.length s.
Proof.
  destruct s as [|c s]; [discriminate|].
  destruct (Ascii.eqb_spec c "0") as [->|Hc].
  - intros _. pose proof (length_strip_leading_zeros_le s). simpl. lia.
  - destruct c as [[] [] [] [] [] [] [] []]; simpl; try discriminate; congruence.
Qed.

Lemma length_trailing_zeros_le (s : string) :
  String.length (JS.trailing_zeros s) <= String.length s.
Proof.
  induction s as [|c s IH]; simpl; [lia|].
  destruct (Ascii.eqb c "0" && String.eqb (JS.trailing_zeros s) s); simpl; lia.
Qed.

Lemma length_strip_trailing_zeros (s : string) (m0 : string) :
  JS.match_trailing_zeros s = Some m0 ->
  String.length (JS.strip_trailing_zeros s) < String.length s.
Proof.
  unfold JS.match_trailing_zeros, JS.strip_trailing_zeros.
  pose proof (length_trailing_zeros_le s) as Hle.
  destruct (JS.trailing_zeros s) as [|c t] eqn:E; [discriminate|].
  intros _. rewrite length_substring_prefix. simpl in *. lia.
Qed.

Lemma length_starts_with_minus (s : string) :
  JS.starts_with_minus s = true -> 1 <= String.length s.
Proof.
  destruct s as [|a s]; [discriminate|]. simpl String.length. lia.
Qed.

Lemma length_starts_with_zero_dot (s : string) :
  JS.starts_with_zero_dot s = true -> 2 <= String.length s.
Proof.
  destruct s as [|a [|b s]]; [discriminate| |simpl String.length; lia].
  destruct a as [[] [] [] [] [] [] [] []]; discriminate.
Qed.

(** Any two counters above the length of the string give the same
    result: the counter never runs out. *)
Lemma significand_rec_stable (f1 : nat) :
  forall (s : string) (f2 : nat),
    String.length s < f1 -> String.length s < f2 ->
    significand_rec f1 s = significand_rec f2 s.
Proof.
  induction f1 as [|f1 IH]; intros s f2 H1 H2; [lia|].
  destruct f2 as [|f2]; [lia|].
  cbn [significand_rec].
  destruct (JS.starts_with_minus s) eqn:Em.
  { pose proof (length_substring_from s 1) as L.
    change (Z.of_nat 1) with 1%Z in L.
    pose proof (length_starts_with_minus s Em).
    apply IH; lia. }
  destruct (JS.starts_with_zero_dot s) eqn:Ez.
  { pose proof (length_substring_from s 2) as L.
    change (Z.of_nat 2) with 2%Z in L.
    pose proof (length_starts_with_zero_dot s Ez).
    apply IH; lia. }
  destruct (JS.has_dot s) eqn:Ed.
  { pose proof (length_remove_first_dot s Ed). apply IH; lia. }
  destruct (JS.starts_with_zero s) eqn:E0.
  { pose proof (length_strip_leading_zeros s E0). apply IH; lia. }
  destruct (JS.match_trailing_zeros s) as [m0|] eqn:Et; [|reflexivity].
  pose proof (length_strip_trailing_zeros s m0 Et). apply IH; lia.
Qed.

(** [significand] is the recursion of the source run to its end: a
    larger counter changes nothing. *)
Lemma significand_rec_enough (fuel : nat) (s : string) :
  String.length s < fuel -> significand_rec fuel s = significand s.
Proof.
  intros H. unfold significand. apply significand_rec_stable; lia.
Qed.

End SignificandTermination.

(** ** Properties of the digit-string engine *)

Module DigitStringFacts.
Import Common DigitString Reference.

Lemma rem2_even (d : Z) : (Z.rem d 2 =? 0) = negb (Z.odd d).
Proof.
  rewrite <- Z.negb_even, negb_involutive.
  destruct (Z.eqb_spec (Z.rem d 2) 0) as [H | H].
  - symmetry. apply Z.even_spec. exists (Z.quot d 2).
    pose proof (Z.quot_rem' d 2). lia.
  - destruct (Z.even d) eqn:E; [|reflexivity].
    exfalso. apply H. apply Z.even_spec in E. destruct E as [k ->].
    rewrite Z.mul_comm. apply Z.rem_mul. lia.
Qed.

(** C8.  For every sign, every kept digit 0-9, every deciding digit 0-9
    and each of the nine rounding modes, [roundIt] returns the kept digit
    plus one exactly when the table of the specification says to round
    up, and the kept digit otherwise. *)
Theorem roundIt_follows_table :
  forall (s : bool) (mode : RoundingMode) (d r : Z),
    0 <= d <= 9 -> 0 <= r <= 9 ->
    roundIt s (JS.JNum d) (JS.JNum r) mode
    = JS.JNum (if table_rounds_up mode s d r then d + 1 else d).
Proof.
  intros s mode d r _ _.
  destruct mode; cbn [roundIt table_rounds_up JS.geb JS.gtb JS.eqb JS.is_even
                      JS.succ].
  - now destruct s.
  - now destruct s.
  - reflexivity.
  - reflexivity.
  - rewrite rem2_even.
    destruct (Z.eqb_spec r 5) as [-> | Hr].
    + cbn. now destruct (Z.odd d).
    + rewrite andb_false_l, orb_false_r. now destruct (5 <? r).
  - now destruct (5 <=? r).
  - destruct (5 <=? r), s; reflexivity.
  - destruct (Z.eqb_spec r 5) as [-> | Hr].
    + cbn. now destruct s.
    + rewrite andb_false_l, orb_false_r. now destruct (5 <? r).
  - destruct (Z.eqb_spec r 5) as [-> | Hr].
    + reflexivity.
    + now destruct (5 <? r).
Qed.

Lemma roundIt_follows_table_witness :
  roundIt false (JS.JNum 5) (JS.JNum 5) ROUNDING_MODE_HALF_EVEN
  = JS.JNum (if table_rounds_up ROUNDING_MODE_HALF_EVEN false 5 5
             then 5 + 1 else 5).
Proof.
  apply (roundIt_follows_table false ROUNDING_MODE_HALF_EVEN 5 5); lia.
Defined.

(** The table, read off for each mode on all the digits at once. *)
Lemma roundIt_rounds_up_values :
  forall (s : bool) (mode : RoundingMode) (d r : Z),
    0 <= d <= 9 -> 0 <= r <= 9 ->
    roundIt s (JS.JNum d) (JS.JNum r) mode = JS.JNum d
    \/ roundIt s (JS.JNum d) (JS.JNum r) mode = JS.JNum (d + 1).
Proof.
  intros s mode d r Hd Hr.
  destruct mode, s; cbn -[Z.add];
    repeat match goal with
           | |- context [if ?b then _ else _] => destruct b
           end; auto.
Qed.

(** *** Digit validation *)

Lemma integerCharToDigit_throw (c : ascii) (e : exn) :
  integerCharToDigit c = Throw e -> e = Error "Not a digit".
Proof.
  unfold integerCharToDigit.
  destruct c as [[] [] [] [] [] [] [] []]; intros H;
    solve [discriminate H | now inversion H].
Qed.

Lemma mapM_digits_throw (l : list ascii) (e : exn) :
  mapM integerCharToDigit l = Throw e -> e = Error "Not a digit".
Proof.
  induction l as [|c l IH]; cbn [mapM]; [discriminate|].
  destruct (integerCharToDigit c) as [d|e'] eqn:Ec; cbn [bind].
  - destruct (mapM integerCharToDigit l) as [ds|e'']; cbn [bind].
    + discriminate.
    + intros H. inversion H. subst. now apply IH.
  - intros H. inversion H. subst. now apply integerCharToDigit_throw in Ec.
Qed.

(** [explodeDigits] raises nothing but the error of
    [integerCharToDigit]. *)
Lemma explodeDigits_throw (s : string) (e : exn) :
  explodeDigits s = Throw e -> e = Error "Not a digit".
Proof. apply mapM_digits_throw. Qed.

(** A text that ends in something that is not a digit string is not a
    digit string. *)
Lemma explodeDigits_bad_suffix (a b : string) (e : exn) :
  explodeDigits b = Throw e ->
  explodeDigits (a ++ b) = Throw (Error "Not a digit").
Proof.
  intros Hb. pose proof (explodeDigits_throw _ _ Hb) as ->.
  unfold explodeDigits in *.
  induction a as [|c a IH]; cbn [append list_ascii_of_string mapM];
    [exact Hb|].
  destruct (integerCharToDigit c) as [d|e'] eqn:Ec; cbn [bind].
  - now rewrite IH.
  - now apply integerCharToDigit_throw in Ec as ->.
Qed.

(** [new DigitString(l, r)] raises nothing but the error of
    [integerCharToDigit]. *)
Lemma new_throw (l r : string) (e : exn) :
  new l r = Throw e -> e = Error "Not a digit".
Proof.
  unfold new.
  destruct (explodeDigits l) as [ld|e1] eqn:El; cbn [bind].
  - destruct (explodeDigits r) as [rd|e2] eqn:Er; cbn [bind].
    + discriminate.
    + intros H. inversion H. subst. now apply explodeDigits_throw in Er.
  - intros H. inversion H. subst. now apply explodeDigits_throw in El.
Qed.

Lemma new_bad_rhs (l r : string) (e : exn) :
  explodeDigits r = Throw e -> new l r = Throw (Error "Not a digit").
Proof.
  intros Hr. pose proof (explodeDigits_throw _ _ Hr) as ->.
  unfold new.
  destruct (explodeDigits l) as [ld|e1] eqn:El; cbn [bind].
  - now rewrite Hr.
  - now apply explodeDigits_throw in El as ->.
Qed.

(** [round] raises nothing but the error of [integerCharToDigit]. *)
Lemma round_throw (ds : t) (v : JS.jsval) (mode : RoundingMode) (e : exn) :
  round ds v mode = Throw e -> e = Error "Not a digit".
Proof.
  unfold round. destruct (JS.split_on JS.is_dot (toString ds)) as [l rest].
  apply new_throw.
Qed.

(** With an [undefined] digit to round, every mode returns [undefined]
    or [NaN]. *)
Lemma roundIt_undefined (s : bool) (r : JS.jsval) (mode : RoundingMode) :
  roundIt s JS.JUndefined r mode = JS.JUndefined
  \/ roundIt s JS.JUndefined r mode = JS.JNaN.
Proof.
  destruct mode, s; cbn;
    repeat match goal with
           | |- context [if ?b then _ else _] => destruct b
           end; auto.
Qed.

(** Rounding with an [undefined] final digit splices the text
    ["undefined"] or ["NaN"] after the fractional digits, which the
    constructor of [DigitString] refuses. *)
Lemma round_undefined (ds : t) (mode : RoundingMode) :
  round ds JS.JUndefined mode = Throw (Error "Not a digit").
Proof.
  unfold round. destruct (JS.split_on JS.is_dot (toString ds)) as [l rest].
  set (r := match hd_error rest with Some r => r | None => "undefined" end).
  destruct (roundIt_undefined false (JS.parseInt (JS.charAt (r ++ "0") 0)) mode)
    as [-> | ->]; cbn [JS.to_string].
  - apply new_bad_rhs with (e := Error "Not a digit").
    apply explodeDigits_bad_suffix with (e := Error "Not a digit").
    reflexivity.
  - apply new_bad_rhs with (e := Error "Not a digit").
    apply explodeDigits_bad_suffix with (e := Error "Not a digit").
    reflexivity.
Qed.

End DigitStringFacts.

(** ** Properties of the Decimal128 value type *)

Module Decimal128Facts.
Import Common Decimal128 Reference.

(** *** What construction can raise *)

Lemma exponent_throw (s : string) (e : exn) :
  exponent s = Throw e -> parse_error e.
Proof.
  induction s as [|c s IH].
  - discriminate.
  - assert (Hbody :
      (if JS.has_dot (String c s) then
         match hd_error (snd (JS.split_on JS.is_dot (String c s))) with
         | Some rhs => Ok (0 - JS.length rhs)
         | None => Throw (TypeError "Cannot read properties of undefined")
         end
       else if String.eqb (String c s) "0" then Ok 0
       else match JS.match_trailing_zeros (String c s) with
            | Some m0 => Ok (JS.length m0)
            | None => Ok 0
            end) = Throw e -> parse_error e).
    { destruct (JS.has_dot (String c s)).
      - destruct (hd_error (snd (JS.split_on JS.is_dot (String c s)))).
        + discriminate.
        + intros H. inversion H. right. eexists. reflexivity.
      - destruct (String.eqb (String c s) "0"); [discriminate|].
        destruct (JS.match_trailing_zeros (String c s)); discriminate. }
    destruct c as [[] [] [] [] [] [] [] []]; try exact Hbody. exact IH.
Qed.

Lemma handleDecimalNotation_throw (s : string) (e : exn) :
  handleDecimalNotation s = Throw e -> parse_error e.
Proof.
  unfold handleDecimalNotation.
  set (w := if JS.starts_with_minus s
            then JS.substring_from (JS.remove_underscores s) 1
            else JS.remove_underscores s).
  destruct (exponent w) as [exp|e0] eqn:Ee; cbn [bind].
  2:{ intros H. inversion H. subst. now apply exponent_throw in Ee. }
  destruct (JS.split_on JS.is_dot w) as [lhs rest].
  destruct (DigitString.new lhs _) as [d|e1] eqn:Ed; cbn [bind].
  2:{ intros H. inversion H. subst. left.
      now apply DigitStringFacts.new_throw in Ed. }
  destruct (negb (0 <=? exp) && _).
  - destruct (DigitString.round d _ _) as [d'|e2] eqn:Er; cbn [bind].
    + discriminate.
    + intros H. inversion H. subst. left.
      now apply DigitStringFacts.round_throw in Er.
  - cbn [bind]. discriminate.
Qed.

Lemma validateConstructorData_not_too_small (x : t) :
  validateConstructorData x <> Throw (RangeError "Exponent too small").
Proof.
  unfold validateConstructorData.
  destruct (isNaN x); [discriminate|].
  destruct (isInteger_data x && _); [discriminate|].
  destruct (EXPONENT_MAX <? _); [discriminate|].
  destruct (Z.ltb_spec (DigitString.exponent (digits x)) EXPONENT_MIN)
    as [Hlt | Hge]; [|discriminate].
  unfold DigitString.exponent, EXPONENT_MIN in Hlt. lia.
Qed.

Lemma parse_error_not_too_small (e : exn) :
  parse_error e -> e <> RangeError "Exponent too small".
Proof. intros [-> | [msg ->]]; discriminate. Qed.

(** C9.  The exponent of a digit sequence is the length of its integer
    part, so it is never negative: the constructor never raises the
    exponent-too-small error, and for every finite numeral that is not
    NaN the exponent is non-negative and [isInteger()] is true. *)
Theorem constructed_exponent_is_nonnegative :
  forall n : string,
    new n <> Throw (RangeError "Exponent too small")
    /\ forall x : t,
         new n = Ok x -> isNaN x = false -> isFinite x = true ->
         0 <= DigitString.exponent (digits x) /\ isInteger x = true.
Proof.
  intros n. split.
  - unfold new.
    set (parsed := if Regex.matches nanRegExp n then handleNan n else _).
    assert (Hp : forall e, parsed = Throw e ->
                           e <> RangeError "Exponent too small").
    { subst parsed. intros e.
      destruct (Regex.matches nanRegExp n); [discriminate|].
      destruct (Regex.matches exponentRegExp n).
      { intros H. apply parse_error_not_too_small.
        now apply handleDecimalNotation_throw in H. }
      destruct (Regex.matches digitStrRegExp n).
      { intros H. apply parse_error_not_too_small.
        now apply handleDecimalNotation_throw in H. }
      destruct (Regex.matches infRegExp n); [discriminate|].
      intros H. inversion H. discriminate. }
    destruct parsed as [data|e]; cbn [bind].
    + pose proof (validateConstructorData_not_too_small data) as Hv.
      destruct (validateConstructorData data) as [u|e]; cbn [bind];
        [discriminate|].
      intros H. apply Hv. inversion H. reflexivity.
    + intros H. apply (Hp e eq_refl). now inversion H.
  - intros x _ Hnan Hfin.
    assert (Hexp : 0 <= DigitString.exponent (digits x))
      by (unfold DigitString.exponent; lia).
    split; [exact Hexp|].
    unfold isInteger. rewrite Hnan, Hfin. cbn.
    now apply Z.leb_le.
Qed.

Lemma constructed_exponent_is_nonnegative_witness :
  exists x : t,
    new "1.5" = Ok x
    /\ 0 <= DigitString.exponent (digits x) /\ isInteger x = true.
Proof.
  exists (mk false true (DigitString.mk [1] [5]) false).
  split; [reflexivity|].
  apply (proj2 (constructed_exponent_is_nonnegative "1.5")); reflexivity.
Defined.

(** *** Rounding at the end of the fractional digits *)

Lemma array_get_at_length (l : list Digit) :
  array_get l (Z.of_nat (List.length l)) = JS.JUndefined.
Proof.
  unfold array_get.
  destruct (Z.ltb_spec (Z.of_nat (List.length l)) 0) as [H | H];
    [reflexivity|].
  rewrite Nat2Z.id.
  replace (nth_error l (List.length l)) with (@None Digit); [reflexivity|].
  symmetry. apply nth_error_None. lia.
Qed.

(** C10.  For every finite numeral that is not NaN, with [n] the number
    of its fractional digits, [round(n, mode)] raises the digit
    validation error instead of returning a numeral: the deciding digit
    is read one past the end of the fractional digits.  (The length of
    an array is a safe integer, which is the hypothesis on [n + 1].) *)
Theorem round_at_fraction_length_raises :
  forall (x : t) (mode : RoundingMode),
    isNaN x = false -> isFinite x = true ->
    isSafeInteger
      (Z.of_nat (List.length (DigitString.rhs (digits x))) + 1) = true ->
    round x (Z.of_nat (List.length (DigitString.rhs (digits x)))) mode
    = Throw (Error "Not a digit").
Proof.
  intros x mode Hnan Hfin Hsafe.
  unfold round. rewrite Hsafe, Hnan, Hfin. cbn [negb].
  destruct (Z.ltb_spec (Z.of_nat (List.length (DigitString.rhs (digits x)))) 0)
    as [H | _]; [lia|].
  rewrite Z.ltb_irrefl, array_get_at_length.
  now rewrite DigitStringFacts.round_undefined.
Qed.

Lemma round_at_fraction_length_raises_witness :
  round (mk false true (DigitString.mk [5] []) false) 0
        ROUNDING_MODE_HALF_EXPAND
  = Throw (Error "Not a digit").
Proof.
  apply (round_at_fraction_length_raises
           (mk false true (DigitString.mk [5] []) false)
           ROUNDING_MODE_HALF_EXPAND); reflexivity.
Defined.

End Decimal128Facts.

(** ** Special values in the arithmetic *)

Module SpecialValues.
Import Common Decimal128 Reference.

Lemma new_NaN : new "NaN" = Ok quietNaN.
Proof. reflexivity. Qed.

Lemma new_negative_NaN : new "-NaN" = Ok negativeNaN.
Proof. reflexivity. Qed.

(** [isZero()] tests [digits.isInteger()], that is [exponent() >= 0]:
    it holds of every finite numeral, whatever its digits. *)
Lemma isZero_of_finite (x : t) :
  isNaN x = false -> isFinite x = true -> isZero x = true.
Proof.
  intros Hnan Hfin. unfold isZero, DigitString.isInteger.
  rewrite Hnan, Hfin. cbn.
  apply Z.leb_le. unfold DigitString.exponent. lia.
Qed.

Lemma digits_isInteger (ds : DigitString.t) :
  DigitString.isInteger ds = true.
Proof.
  apply Z.leb_le. unfold DigitString.exponent. lia.
Qed.

Lemma negate_NaN (x : t) :
  isNaN x = true -> negate x = Ok negativeNaN.
Proof.
  intros H. unfold negate, toString. now rewrite H.
Qed.

Lemma round_NaN (x : t) (n : Z) (mode : RoundingMode) :
  isNaN x = true -> 0 <= n -> isSafeInteger (n + 1) = true ->
  round x n mode = Ok x.
Proof.
  intros H Hn Hsafe. unfold round. rewrite Hsafe, H. cbn [negb].
  destruct (Z.ltb_spec n 0); [lia | reflexivity].
Qed.

Lemma truncate_NaN (x : t) : isNaN x = true -> truncate x = Ok x.
Proof. intros H. unfold truncate. now rewrite H. Qed.

(** [abs] returns a numeral that is not negative unchanged. *)
Lemma abs_of_nonnegative (x : t) : isNegative x = false -> abs x = Ok x.
Proof. intros H. unfold abs. now rewrite H. Qed.

Section Arithmetic.

Variable toDecimalPlaces : Rational.t -> Z -> string.

(** Division by any finite numeral takes the zero-divisor exit. *)
Lemma divide_by_finite (this x : t) :
  isNaN x = false -> isFinite x = true ->
  divide toDecimalPlaces this x = Ok quietNaN.
Proof.
  intros Hnan Hfin. unfold divide.
  rewrite (isZero_of_finite x Hnan Hfin), Hnan.
  now destruct (isNaN this).
Qed.

(** All of [divide]: the rational quotient is never reached.  The result
    is NaN unless the dividend is finite and the divisor infinite, when
    it is a signed zero. *)
Lemma divide_characterised (this x : t) :
  divide toDecimalPlaces this x
  = if isNaN this || isNaN x || isFinite x || negb (isFinite this)
    then Ok quietNaN
    else if Bool.eqb (isNegative this) (isNegative x) then new "0"
    else new "-0".
Proof.
  unfold divide, isZero. rewrite digits_isInteger.
  destruct (isNaN this), (isNaN x), (isFinite x), (isFinite this),
    (isNegative this), (isNegative x); reflexivity.
Qed.

(** *** NaN operands *)

Lemma add_NaN (x y : t) :
  isNaN x = true ->
  add toDecimalPlaces x y = Ok quietNaN
  /\ add toDecimalPlaces y x = Ok quietNaN.
Proof.
  intros H. unfold add. rewrite H, orb_true_r. now split.
Qed.

Lemma subtract_NaN (x y : t) :
  isNaN x = true ->
  subtract toDecimalPlaces x y = Ok quietNaN
  /\ subtract toDecimalPlaces y x = Ok quietNaN.
Proof.
  intros H. unfold subtract. rewrite H, orb_true_r. now split.
Qed.

Lemma multiply_NaN (x y : t) :
  isNaN x = true ->
  multiply toDecimalPlaces x y = Ok quietNaN
  /\ multiply toDecimalPlaces y x = Ok quietNaN.
Proof.
  intros H. unfold multiply. rewrite H, orb_true_r. now split.
Qed.

Lemma divide_NaN (x y : t) :
  isNaN x = true ->
  divide toDecimalPlaces x y = Ok quietNaN
  /\ divide toDecimalPlaces y x = Ok quietNaN.
Proof.
  intros H. unfold divide. rewrite H, orb_true_r. now split.
Qed.

Lemma remainder_NaN (depth : nat) (x y : t) :
  isNaN x = true ->
  remainder toDecimalPlaces (S depth) x y = Ok quietNaN
  /\ remainder toDecimalPlaces (S depth) y x = Ok quietNaN.
Proof.
  intros H. cbn [remainder]. rewrite H, orb_true_r. now split.
Qed.

End Arithmetic.

End SpecialValues.

(** ** The operations on concrete literals *)

Module Scenarios.
Import Common Decimal128 Reference.

(** Each conjunct is settled by running the code; they are taken in
    order, because a conjunct can name the numeral that an earlier one
    has built. *)
Ltac run_one :=
  first [ vm_compute; reflexivity
        | vm_compute; let H := fresh in intro H; discriminate H ].

Ltac run :=
  lazymatch goal with
  | |- _ /\ _ => split; [run_one | run]
  | |- _ => run_one
  end.

(** C1.  On the digit sequence of [2.5] (integer part [2], fractional
    part [5]) [toRational] returns 250/1, where the specified value
    [significand * 10^(exponent - digits)] is 25/10; the two differ.  The
    same happens on the integer 12, turned into 12/100, so that [cmp]
    puts 12 below 2. *)
Theorem toRational_of_2_5 :
  exists ds twelve two,
    DigitString.new "2" "5" = Ok ds
    /\ DigitString.toRational ds = Ok (Rational.mk 250 1)
    /\ DigitString.specified_value ds = Ok (Rational.mk 25 10)
    /\ ~ Rational.same_value (Rational.mk 250 1) (Rational.mk 25 10)
    /\ new "12" = Ok twelve /\ new "2" = Ok two
    /\ toRational twelve = Ok (Rational.mk 12 100)
    /\ cmp twelve two = Ok (Some (-1)).
Proof.
  do 3 eexists. run.
Qed.

(** C2.  The literal [5] parses to a finite numeral whose [toString()]
    is [5.]: it is not of the plain form and the constructor refuses it.
    The literal [-1.5] parses to a negative numeral whose [toString()]
    is [1.5], without the sign. *)
Theorem toString_of_5_does_not_parse :
  exists x y,
    new "5" = Ok x /\ isFinite x = true /\ isNaN x = false
    /\ toString x = "5."
    /\ Regex.matches plainForm (toString x) = false
    /\ new (toString x) = Throw (SyntaxError "Illegal number format")
    /\ new "-1.5" = Ok y /\ isNegative y = true
    /\ toString y = "1.5".
Proof.
  do 2 eexists. run.
Qed.

(** C3.  Whatever text the rational engine renders, [10] divided by [4]
    is NaN, and comparing it with [2.5] gives no ordering. *)
Theorem divide_10_by_4 :
  forall toDecimalPlaces : Rational.t -> Z -> string,
  exists a b c q,
    new "10" = Ok a /\ new "4" = Ok b /\ new "2.5" = Ok c
    /\ isZero b = true
    /\ divide toDecimalPlaces a b = Ok q
    /\ isNaN q = true
    /\ cmp q c = Ok None.
Proof.
  intros tdp. do 4 eexists. run.
Qed.

(** C4.  [abs] of the negative NaN raises a syntax error: the text
    [NaN] loses its first letter. *)
Theorem abs_of_negative_NaN :
  exists x,
    new "-NaN" = Ok x /\ isNaN x = true /\ isNegative x = true
    /\ JS.substring_from (toString x) 1 = "aN"
    /\ abs x = Throw (SyntaxError "Illegal number format").
Proof.
  eexists. run.
Qed.

(** C5.  A 35-digit integer literal raises the integer-too-large error,
    and so does a non-integer literal with 35 significant digits: the
    rounding step leaves 36 digits, which the validation then refuses
    as an integer. *)
Theorem construct_35_digits :
  new "12345678901234567890123456789012345"
  = Throw (RangeError "Integer too large")
  /\ (exists d,
        handleDecimalNotation "1.2345678901234567890123456789012345" = Ok d
        /\ DigitString.countSignificantDigits (digits d) = 36
        /\ isInteger_data d = true)
  /\ new "1.2345678901234567890123456789012345"
     = Throw (RangeError "Integer too large").
Proof.
  split; [run_one|].
  split; [eexists; run | run_one].
Qed.

(** C6.  Under each of the nine modes, [round(0, mode)] of [2.5] is
    [2.05] or [2.06], which compares equal neither to [2] nor to [3]. *)
Theorem round_2_5_to_0_places :
  forall mode : RoundingMode,
  exists x r two three,
    new "2.5" = Ok x /\ new "2" = Ok two /\ new "3" = Ok three
    /\ round x 0 mode = Ok r
    /\ (toString r = "2.05" \/ toString r = "2.06")
    /\ cmp r two = Ok (Some 1)
    /\ cmp r three = Ok (Some 1).
Proof.
  intros mode.
  exists (mk false true (DigitString.mk [2] [5]) false).
  exists (mk false true
             (DigitString.mk [2] [0; if table_rounds_up_5 mode then 6 else 5])
             false).
  exists (mk false true (DigitString.mk [2] []) false).
  exists (mk false true (DigitString.mk [3] []) false).
  destruct mode; cbn [table_rounds_up_5];
    (split; [run_one|]); (split; [run_one|]); (split; [run_one|]);
    (split; [run_one|]);
    (split; [first [left; run_one | right; run_one]|]); run.
Qed.

(** C7.  [abs] of [-1.5] raises a syntax error, and [abs] of [-12.5] is
    [2.5]: the first character that [abs] drops is a digit, since
    [toString()] writes no sign. *)
Theorem abs_of_negative_finite :
  exists x y z,
    new "-1.5" = Ok x /\ toString x = "1.5"
    /\ abs x = Throw (SyntaxError "Illegal number format")
    /\ new "-12.5" = Ok y /\ abs y = Ok z
    /\ toString z = "2.5"
    /\ negate y = Ok y
    /\ cmp z y = Ok (Some 1).
Proof.
  do 3 eexists. run.
Qed.

End Scenarios.

(** ** Digit strings *)

Module DigitText.
Import Common DigitString Automaton.

Lemma is_digit_cases (c : ascii) :
  JS.is_digit c = true -> In c digit_chars.
Proof.
  destruct c as [[] [] [] [] [] [] [] []]; intros H;
    first [discriminate H | cbn; auto 12].
Qed.

Lemma digit_chars_are_digits (c : ascii) :
  In c digit_chars -> JS.is_digit c = true.
Proof.
  cbn. intros H.
  repeat (destruct H as [<- | H]; [reflexivity|]). destruct H.
Qed.

(** A character that [integerCharToDigit] accepts is a decimal digit,
    and the digit renders back as that character. *)
Lemma integerCharToDigit_ok (c : ascii) (d : Digit) :
  integerCharToDigit c = Ok d ->
  JS.is_digit c = true /\ 0 <= d <= 9
  /\ JS.Z_to_string d = String c "" /\ d = JS.digit_value c.
Proof.
  destruct c as [[] [] [] [] [] [] [] []]; intros H;
    first [discriminate H
          | inversion H; subst d; repeat split; (reflexivity || lia)].
Qed.


Lemma join_cons (d : Z) (ds : list Z) :
  JS.join (d :: ds) = JS.Z_to_string d ++ JS.join ds.
Proof.
  unfold JS.join. destruct ds as [|d' ds]; cbn [map String.concat].
  - induction (JS.Z_to_string d) as [|c s IH]; cbn; [reflexivity|].
    now rewrite <- IH.
  - reflexivity.
Qed.

Lemma explodeDigits_cons (c : ascii) (s : string) :
  explodeDigits (String c s)
  = (d <- integerCharToDigit c ;; ds <- explodeDigits s ;; Ok (d :: ds)).
Proof. reflexivity. Qed.

(** What a successful [explodeDigits] tells: the text is made of decimal
    digits, there are as many digits as characters, each is in 0-9, and
    joining them gives the text back. *)
Lemma explodeDigits_ok (s : string) :
  forall ds : list Digit,
    explodeDigits s = Ok ds ->
    JS.all_digits s = true
    /\ List.length ds = String.length s
    /\ Forall (fun d => 0 <= d <= 9) ds
    /\ JS.join ds = s.
Proof.
  induction s as [|c s IH]; intros ds H.
  - inversion H. repeat split; constructor.
  - rewrite explodeDigits_cons in H.
    destruct (integerCharToDigit c) as [d|e] eqn:Ec; [|discriminate H].
    destruct (explodeDigits s) as [ds'|e] eqn:Es; [|discriminate H].
    cbn [bind] in H. inversion H. subst ds.
    destruct (integerCharToDigit_ok c d Ec) as (Hc & Hd & Hs & _).
    destruct (IH ds' eq_refl) as (Ha & Hl & Hf & Hj).
    repeat split.
    + cbn. now rewrite Hc, Ha.
    + cbn. now rewrite Hl.
    + now constructor.
    + rewrite join_cons, Hs, Hj. reflexivity.
Qed.


Lemma digit_renders (d : Z) :
  0 <= d <= 9 ->
  exists c, JS.Z_to_string d = String c "" /\ integerCharToDigit c = Ok d.
Proof.
  intros H.
  assert (d = 0 \/ d = 1 \/ d = 2 \/ d = 3 \/ d = 4 \/ d = 5 \/ d = 6
          \/ d = 7 \/ d = 8 \/ d = 9) as Hd by lia.
  repeat (destruct Hd as [-> | Hd]; [eexists; split; reflexivity|]).
  subst d. eexists; split; reflexivity.
Qed.

(** Joining digits and exploding the text gives the digits back. *)
Lemma explodeDigits_join (ds : list Digit) :
  Forall (fun d => 0 <= d <= 9) ds -> explodeDigits (JS.join ds) = Ok ds.
Proof.
  induction 1 as [|d ds Hd _ IH]; [reflexivity|].
  rewrite join_cons. destruct (digit_renders d Hd) as (c & -> & Hc).
  cbn [append]. rewrite explodeDigits_cons, Hc, IH. reflexivity.
Qed.

Lemma join_nonempty (ds : list Digit) :
  Forall (fun d => 0 <= d <= 9) ds -> ds <> [] -> JS.join ds <> "".
Proof.
  intros Hf Hne. destruct Hf as [|d ds Hd _]; [now exfalso; apply Hne|].
  rewrite join_cons. destruct (digit_renders d Hd) as (c & -> & _).
  discriminate.
Qed.

(** *** Splitting, stripping and cutting digit texts *)

Lemma all_digits_no_dot (s : string) :
  JS.all_digits s = true -> JS.has_dot s = false.
Proof.
  induction s as [|c s IH]; [reflexivity|]. cbn. intros H.
  apply andb_prop in H as [Hc Hs]. rewrite (IH Hs), orb_false_r.
  apply is_digit_cases in Hc. cbn in Hc.
  repeat (destruct Hc as [<- | Hc]; [reflexivity|]). destruct Hc.
Qed.

Lemma split_no_dot (s : string) :
  JS.has_dot s = false -> JS.split_on JS.is_dot s = (s, []).
Proof.
  induction s as [|c s IH]; [reflexivity|]. cbn. intros H.
  apply orb_false_elim in H as [Hc Hs]. rewrite (IH Hs), Hc. reflexivity.
Qed.

Lemma split_at_dot (l r : string) :
  JS.has_dot l = false ->
  JS.split_on JS.is_dot (l ++ "." ++ r)
  = (l, fst (JS.split_on JS.is_dot r) :: snd (JS.split_on JS.is_dot r)).
Proof.
  change ("." ++ r) with (String "." r).
  induction l as [|c l IH]; intros H.
  - cbn. now destruct (JS.split_on JS.is_dot r).
  - cbn in H. apply orb_false_elim in H as [Hc Hl].
    cbn [append JS.split_on]. rewrite (IH Hl), Hc. reflexivity.
Qed.

Lemma split_decimal (l r : string) :
  JS.all_digits l = true -> JS.all_digits r = true ->
  JS.split_on JS.is_dot (l ++ "." ++ r) = (l, [r]).
Proof.
  intros Hl Hr. rewrite split_at_dot by now apply all_digits_no_dot.
  now rewrite (split_no_dot r) by now apply all_digits_no_dot.
Qed.

Lemma has_dot_app (a b : string) :
  JS.has_dot (a ++ b) = JS.has_dot a || JS.has_dot b.
Proof.
  induction a as [|c a IH]; [reflexivity|]. cbn. now rewrite IH, orb_assoc.
Qed.

Lemma remove_underscores_app (a b : string) :
  JS.remove_underscores (a ++ b)
  = JS.remove_underscores a ++ JS.remove_underscores b.
Proof.
  induction a as [|c a IH]; [reflexivity|]. cbn.
  destruct (Ascii.eqb c "_"); cbn; now rewrite IH.
Qed.

Lemma remove_underscores_digits (s : string) :
  JS.all_digits s = true -> JS.remove_underscores s = s.
Proof.
  induction s as [|c s IH]; [reflexivity|]. cbn. intros H.
  apply andb_prop in H as [Hc Hs]. rewrite (IH Hs).
  apply is_digit_cases in Hc. cbn in Hc.
  repeat (destruct Hc as [<- | Hc]; [reflexivity|]). destruct Hc.
Qed.

Lemma substring_from_0 (s : string) : JS.substring_from s 0 = s.
Proof.
  unfold JS.substring_from, JS.substring, JS.clamp, JS.length.
  replace (Z.max 0 (Z.min 0 (Z.of_nat (String.length s)))) with 0 by lia.
  replace (Z.max 0 (Z.min (Z.of_nat (String.length s))
                          (Z.of_nat (String.length s))))
    with (Z.of_nat (String.length s)) by lia.
  replace (Z.min 0 (Z.of_nat (String.length s))) with 0 by lia.
  replace (Z.max 0 (Z.of_nat (String.length s)))
    with (Z.of_nat (String.length s)) by lia.
  rewrite Z.sub_0_r, Nat2Z.id. apply SignificandTermination.substring_all.
Qed.

(** [(c + s).substring(1)] is [s]. *)
Lemma substring_from_1 (c : ascii) (s : string) :
  JS.substring_from (String c s) 1 = s.
Proof.
  unfold JS.substring_from, JS.substring, JS.clamp, JS.length.
  cbn [String.length].
  set (n := String.length s).
  replace (Z.max 0 (Z.min 1 (Z.of_nat (S n)))) with 1 by lia.
  replace (Z.max 0 (Z.min (Z.of_nat (S n)) (Z.of_nat (S n))))
    with (Z.of_nat (S n)) by lia.
  replace (Z.min 1 (Z.of_nat (S n))) with 1 by lia.
  replace (Z.max 1 (Z.of_nat (S n))) with (Z.of_nat (S n)) by lia.
  replace (Z.of_nat (S n) - 1) with (Z.of_nat n) by lia.
  rewrite Nat2Z.id. change (Z.to_nat 1) with 1%nat. cbn [String.substring].
  apply SignificandTermination.substring_all.
Qed.

Lemma length_app (a b : string) :
  String.length (a ++ b) = (String.length a + String.length b)%nat.
Proof. induction a as [|c a IH]; cbn; [reflexivity | now rewrite IH]. Qed.

Lemma app_assoc (a b c : string) : (a ++ b) ++ c = a ++ b ++ c.
Proof. induction a as [|x a IH]; cbn; [reflexivity | now rewrite IH]. Qed.

Lemma all_digits_app (a b : string) :
  JS.all_digits (a ++ b) = JS.all_digits a && JS.all_digits b.
Proof.
  induction a as [|c a IH]; [reflexivity|]. cbn. now rewrite IH, andb_assoc.
Qed.

End DigitText.

(** ** The grammars on digit strings *)

Module AutomatonFacts.
Import Regex Decimal128 Automaton.

Lemma cls_eqb_eq (k1 k2 : cls) : cls_eqb k1 k2 = true -> k1 = k2.
Proof.
  destruct k1, k2; cbn; try discriminate; intros H.
  - apply Ascii.eqb_eq in H. now subst.
  - apply andb_prop in H as [H1 H2].
    apply Ascii.eqb_eq in H1, H2. now subst.
  - apply andb_prop in H as [H1 H2].
    apply Ascii.eqb_eq in H1, H2. now subst.
Qed.

Lemma regex_eqb_eq (r : regex) : forall s, regex_eqb r s = true -> r = s.
Proof.
  induction r as [| |k|a IHa b IHb|a IHa b IHb|a IHa]; intros [] H;
    cbn in H; try discriminate H; try reflexivity.
  - now rewrite (cls_eqb_eq _ _ H).
  - apply andb_prop in H as [H1 H2]. now rewrite (IHa _ H1), (IHb _ H2).
  - apply andb_prop in H as [H1 H2]. now rewrite (IHa _ H1), (IHb _ H2).
  - now rewrite (IHa _ H).
Qed.

Lemma mem_In (r : regex) (l : list regex) : mem r l = true -> In r l.
Proof.
  induction l as [|x l IH]; cbn; [discriminate|]. intros H.
  apply orb_prop in H as [H | H].
  - left. symmetry. now apply regex_eqb_eq.
  - right. now apply IH.
Qed.

Lemma goes_sound (cs : list ascii) (A B : list regex) :
  goes cs A B = true ->
  forall c r, In c cs -> In r A -> In (deriv c r) B.
Proof.
  unfold goes. intros H c r Hc Hr. apply mem_In.
  rewrite forallb_forall in H. specialize (H r Hr).
  rewrite forallb_forall in H. exact (H c Hc).
Qed.

Lemma after_app (a b : string) : forall r, after r (a ++ b) = after (after r a) b.
Proof. induction a as [|c a IH]; intros r; cbn; [reflexivity | apply IH]. Qed.

Lemma matches_after (s : string) : forall r, matches r s = nullable (after r s).
Proof. induction s as [|c s IH]; intros r; cbn; [reflexivity | apply IH]. Qed.

(** Reading digits from a set that the digits lead into a closed set
    ends in that set. *)
Lemma after_digits (A B : list regex) :
  goes digit_chars A B = true -> goes digit_chars B B = true ->
  forall (s : string) (r : regex),
    s <> "" -> JS.all_digits s = true -> In r A -> In (after r s) B.
Proof.
  intros HAB HBB.
  assert (Hstay : forall s r, JS.all_digits s = true -> In r B ->
                              In (after r s) B).
  { induction s as [|c s IH]; intros r Hs Hr; [exact Hr|].
    cbn in Hs. apply andb_prop in Hs as [Hc Hs]. cbn.
    apply IH; [exact Hs|].
    apply (goes_sound _ _ _ HBB); [now apply DigitText.is_digit_cases | exact Hr]. }
  intros [|c s] r Hne Hs Hr; [congruence|].
  cbn in Hs. apply andb_prop in Hs as [Hc Hs]. cbn.
  apply Hstay; [exact Hs|].
  apply (goes_sound _ _ _ HAB); [now apply DigitText.is_digit_cases | exact Hr].
Qed.

Lemma grammars_well_run : forallb well_run grammars = true.
Proof. vm_compute. reflexivity. Qed.

Section Runs.

Variable R : regex.
Hypothesis HR : In R grammars.

Lemma well_run_R :
  goes digit_chars (start R) (int_states R) = true
  /\ goes digit_chars (int_states R) (int_states R) = true
  /\ goes ["."%char] (int_states R) (point_states R) = true
  /\ goes digit_chars (point_states R) (frac_states R) = true
  /\ goes digit_chars (frac_states R) (frac_states R) = true.
Proof.
  pose proof grammars_well_run as H. rewrite forallb_forall in H.
  specialize (H R HR). unfold well_run in H.
  do 4 (apply andb_prop in H as [H ?]). auto.
Qed.

Lemma after_sign (negative : bool) : In (after R (sign negative)) (start R).
Proof. unfold start. destruct negative; cbn [sign after In]; tauto. Qed.

Lemma after_integer (negative : bool) (l : string) :
  l <> "" -> JS.all_digits l = true ->
  In (after R (sign negative ++ l)) (int_states R).
Proof.
  intros Hne Hl. destruct well_run_R as (H1 & H2 & H3 & H4 & H5).
  rewrite after_app.
  apply (after_digits (start R)); auto using after_sign.
Qed.

Lemma after_point (negative : bool) (l : string) :
  l <> "" -> JS.all_digits l = true ->
  In (after R (sign negative ++ l ++ ".")) (point_states R).
Proof.
  intros Hne Hl. destruct well_run_R as (H1 & H2 & H3 & H4 & H5).
  rewrite <- DigitText.app_assoc, after_app. cbn [after].
  apply (goes_sound ["."%char] (int_states R)); [assumption | now left |].
  now apply after_integer.
Qed.

Lemma after_decimal (negative : bool) (l r : string) :
  l <> "" -> JS.all_digits l = true ->
  r <> "" -> JS.all_digits r = true ->
  In (after R (sign negative ++ l ++ "." ++ r)) (frac_states R).
Proof.
  intros Hne Hl Hner Hr. destruct well_run_R as (H1 & H2 & H3 & H4 & H5).
  replace (sign negative ++ l ++ "." ++ r)
    with ((sign negative ++ l ++ ".") ++ r)
    by now rewrite !DigitText.app_assoc.
  rewrite after_app.
  apply (after_digits (point_states R)); auto using after_point.
Qed.

End Runs.

Lemma all_nullable (S : list regex) (r : regex) :
  forallb nullable S = true -> In r S -> nullable r = true.
Proof. intros H Hr. rewrite forallb_forall in H. now apply H. Qed.

Lemma none_nullable (S : list regex) (r : regex) :
  forallb (fun x => negb (nullable x)) S = true -> In r S ->
  nullable r = false.
Proof.
  intros H Hr. rewrite forallb_forall in H. apply negb_true_iff. now apply H.
Qed.

Lemma in_grammars :
  In nanRegExp grammars /\ In exponentRegExp grammars
  /\ In digitStrRegExp grammars /\ In infRegExp grammars.
Proof. unfold grammars. cbn [In]. tauto. Qed.

(** An optional minus sign and digits: only [digitStrRegExp] matches. *)
Lemma integer_text_classified (negative : bool) (l : string) :
  l <> "" -> JS.all_digits l = true ->
  classified_decimal (sign negative ++ l).
Proof.
  intros Hne Hl. destruct in_grammars as (Hn & He & Hd & _).
  unfold classified_decimal. rewrite !matches_after. repeat split.
  - apply (none_nullable (int_states nanRegExp));
      [vm_compute; reflexivity | now apply after_integer].
  - apply (none_nullable (int_states exponentRegExp));
      [vm_compute; reflexivity | now apply after_integer].
  - apply (all_nullable (int_states digitStrRegExp));
      [vm_compute; reflexivity | now apply after_integer].
Qed.

(** An optional minus sign, digits, a point and digits: only
    [digitStrRegExp] matches. *)
Lemma decimal_text_classified (negative : bool) (l r : string) :
  l <> "" -> JS.all_digits l = true ->
  r <> "" -> JS.all_digits r = true ->
  classified_decimal (sign negative ++ l ++ "." ++ r).
Proof.
  intros Hne Hl Hner Hr. destruct in_grammars as (Hn & He & Hd & _).
  unfold classified_decimal. rewrite !matches_after. repeat split.
  - apply (none_nullable (frac_states nanRegExp));
      [vm_compute; reflexivity | now apply after_decimal].
  - apply (none_nullable (frac_states exponentRegExp));
      [vm_compute; reflexivity | now apply after_decimal].
  - apply (all_nullable (frac_states digitStrRegExp));
      [vm_compute; reflexivity | now apply after_decimal].
Qed.

(** Digits that end in a point: no grammar matches. *)
Lemma trailing_point_unclassified (negative : bool) (l : string) :
  l <> "" -> JS.all_digits l = true ->
  unclassified (sign negative ++ l ++ ".").
Proof.
  intros Hne Hl. destruct in_grammars as (Hn & He & Hd & Hi).
  unfold unclassified. rewrite !matches_after. repeat split.
  - apply (none_nullable (point_states nanRegExp));
      [vm_compute; reflexivity | now apply after_point].
  - apply (none_nullable (point_states exponentRegExp));
      [vm_compute; reflexivity | now apply after_point].
  - apply (none_nullable (point_states digitStrRegExp));
      [vm_compute; reflexivity | now apply after_point].
  - apply (none_nullable (point_states infRegExp));
      [vm_compute; reflexivity | now apply after_point].
Qed.



(** The constructor on a text of each kind. *)
Lemma new_classified_decimal (n : string) :
  classified_decimal n ->
  new n = (data <- handleDecimalNotation n ;;
           _ <- validateConstructorData data ;; Ok data).
Proof. intros (Hn & He & Hd). unfold new. now rewrite Hn, He, Hd. Qed.

Lemma new_unclassified (n : string) :
  unclassified n -> new n = Throw (SyntaxError "Illegal number format").
Proof. intros (Hn & He & Hd & Hi). unfold new. now rewrite Hn, He, Hd, Hi. Qed.

End AutomatonFacts.

(** ** The constructor on plain decimal literals *)

Module Literals.
Import Common Decimal128 Automaton AutomatonFacts.

Lemma starts_with_minus_digit (c : ascii) (s : string) :
  JS.is_digit c = true -> JS.starts_with_minus (String c s) = false.
Proof.
  intros H. apply DigitText.is_digit_cases in H. cbn in H.
  repeat (destruct H as [<- | H]; [reflexivity|]). destruct H.
Qed.

Lemma exponent_digit_first (c : ascii) (s : string) :
  JS.is_digit c = true ->
  exponent (String c s)
  = if JS.has_dot (String c s) then
      match hd_error (snd (JS.split_on JS.is_dot (String c s))) with
      | Some rhs => Ok (0 - JS.length rhs)
      | None => Throw (TypeError "Cannot read properties of undefined")
      end
    else if String.eqb (String c s) "0" then Ok 0
    else match JS.match_trailing_zeros (String c s) with
         | Some m0 => Ok (JS.length m0)
         | None => Ok 0
         end.
Proof.
  intros H. apply DigitText.is_digit_cases in H. cbn [In digit_chars] in H.
  repeat (destruct H as [<- | H]; [reflexivity|]). destruct H.
Qed.

Lemma countSignificantDigits_digit_first (c : ascii) (s : string) :
  JS.is_digit c = true ->
  countSignificantDigits (String c s)
  = if JS.starts_with_zero_dot (String c s) then
      match JS.match_dot_zeros (String c s) with
      | Some m0 => JS.length (String c s) - JS.length m0 - 1
      | None => JS.length (String c s) - 2
      end
    else if JS.has_dot (String c s) then JS.length (String c s) - 1
    else match JS.match_trailing_zeros (String c s) with
         | Some m0 => JS.length (String c s) - JS.length m0
         | None => JS.length (String c s)
         end.
Proof.
  intros H. apply DigitText.is_digit_cases in H. cbn [In digit_chars] in H.
  repeat (destruct H as [<- | H]; [reflexivity|]). destruct H.
Qed.

(** The exponent that [handleDecimalNotation] computes for digits
    without a point is not negative. *)
Lemma exponent_of_integer_text (l : string) :
  l <> "" -> JS.all_digits l = true ->
  exists e, exponent l = Ok e /\ 0 <= e.
Proof.
  destruct l as [|c l]; [congruence|]. intros _ Hl.
  pose proof (DigitText.all_digits_no_dot _ Hl) as Hd.
  cbn [JS.all_digits] in Hl. apply andb_prop in Hl as [Hc _].
  rewrite (exponent_digit_first c l Hc), Hd.
  destruct (String.eqb (String c l) "0"); [exists 0; split; [reflexivity|lia]|].
  destruct (JS.match_trailing_zeros (String c l)) as [m0|].
  - exists (JS.length m0). split; [reflexivity | unfold JS.length; lia].
  - exists 0. split; [reflexivity | lia].
Qed.

Lemma has_dot_decimal (l r : string) : JS.has_dot (l ++ "." ++ r) = true.
Proof.
  rewrite DigitText.has_dot_app. cbn. apply orb_true_r.
Qed.

Lemma exponent_of_decimal_text (l r : string) :
  l <> "" -> JS.all_digits l = true -> JS.all_digits r = true ->
  exponent (l ++ "." ++ r) = Ok (0 - JS.length r).
Proof.
  intros Hne Hl Hr.
  pose proof (has_dot_decimal l r) as Hd.
  pose proof (DigitText.split_decimal l r Hl Hr) as Hs.
  destruct l as [|c l]; [congruence|].
  cbn [JS.all_digits] in Hl. apply andb_prop in Hl as [Hc _].
  cbn [append] in *. rewrite (exponent_digit_first c _ Hc), Hd, Hs.
  reflexivity.
Qed.

Lemma length_match_dot_zeros (s m0 : string) :
  JS.match_dot_zeros s = Some m0 -> 0 <= JS.length m0.
Proof. intros _. unfold JS.length. lia. Qed.

(** The count of significant digits of a decimal text is at most the
    number of its digits. *)
Lemma countSignificantDigits_of_decimal_text (l r : string) :
  l <> "" -> JS.all_digits l = true ->
  countSignificantDigits (l ++ "." ++ r)
  <= Z.of_nat (String.length l) + Z.of_nat (String.length r).
Proof.
  intros Hne Hl.
  pose proof (has_dot_decimal l r) as Hd.
  assert (Hlen : JS.length (l ++ "." ++ r)
                 = Z.of_nat (String.length l) + 1 + Z.of_nat (String.length r)).
  { unfold JS.length. rewrite !DigitText.length_app. cbn [String.length]. lia. }
  destruct l as [|c l]; [congruence|].
  cbn [JS.all_digits] in Hl. apply andb_prop in Hl as [Hc _].
  cbn [append] in *. rewrite (countSignificantDigits_digit_first c _ Hc), Hd.
  destruct (JS.starts_with_zero_dot _).
  - destruct (JS.match_dot_zeros _) as [m0|]; unfold JS.length in *; lia.
  - lia.
Qed.

(** [handleDecimalNotation] on an optional minus sign followed by a text
    [body] that has no underscore and no sign of its own. *)
Lemma handleDecimalNotation_signed (negative : bool) (body : string) :
  JS.remove_underscores body = body ->
  JS.starts_with_minus body = false ->
  handleDecimalNotation (sign negative ++ body)
  = (exp <- exponent body ;;
     let '(lhs, rest) := JS.split_on JS.is_dot body in
     digits <- DigitString.new lhs
                 (match hd_error rest with Some rhs => rhs | None => "" end) ;;
     digits <-
       (if negb (0 <=? exp)
           && (MAX_SIGNIFICANT_DIGITS <? countSignificantDigits body) then
          DigitString.round digits
            (JS.parseInt (JS.charAt (significand body) MAX_SIGNIFICANT_DIGITS))
            ROUNDING_MODE_HALF_EVEN
        else Ok digits) ;;
     Ok (mk false true digits negative)).
Proof.
  intros Hu Hm. unfold handleDecimalNotation.
  destruct negative; cbn [sign append].
  - cbn [JS.remove_underscores JS.starts_with_minus]. rewrite Hu.
    change (Ascii.eqb "-" "_") with false. cbn iota.
    rewrite DigitText.substring_from_1. reflexivity.
  - rewrite Hu, Hm. reflexivity.
Qed.

Lemma digits_text_plain (l : string) :
  l <> "" -> JS.all_digits l = true ->
  JS.remove_underscores l = l /\ JS.starts_with_minus l = false.
Proof.
  intros Hne Hl. split; [now apply DigitText.remove_underscores_digits|].
  destruct l as [|c l]; [congruence|].
  cbn in Hl. apply andb_prop in Hl as [Hc _].
  now apply starts_with_minus_digit.
Qed.

Lemma decimal_text_plain (l r : string) :
  l <> "" -> JS.all_digits l = true -> JS.all_digits r = true ->
  JS.remove_underscores (l ++ "." ++ r) = l ++ "." ++ r
  /\ JS.starts_with_minus (l ++ "." ++ r) = false.
Proof.
  intros Hne Hl Hr. split.
  - rewrite !DigitText.remove_underscores_app.
    rewrite (DigitText.remove_underscores_digits l Hl),
      (DigitText.remove_underscores_digits r Hr). reflexivity.
  - destruct l as [|c l]; [congruence|].
    cbn in Hl. apply andb_prop in Hl as [Hc _].
    now apply starts_with_minus_digit.
Qed.

(** What validation does with a finite numeral: it counts the digits of
    both parts and nothing else. *)
Lemma validate_finite (ds : DigitString.t) (negative : bool) :
  validateConstructorData (mk false true ds negative)
  = if MAX_SIGNIFICANT_DIGITS <? DigitString.countSignificantDigits ds
    then Throw (RangeError "Integer too large")
    else Ok tt.
Proof.
  unfold validateConstructorData, isInteger_data. cbn [isNaN isFinite digits negb andb].
  assert (H0 : (0 <=? DigitString.exponent ds) = true)
    by (apply Z.leb_le; unfold DigitString.exponent; lia).
  rewrite H0. cbn [andb].
  destruct (Z.ltb_spec MAX_SIGNIFICANT_DIGITS
                       (DigitString.countSignificantDigits ds)) as [Hbig|Hok];
    [reflexivity|].
  unfold DigitString.countSignificantDigits, DigitString.exponent,
    MAX_SIGNIFICANT_DIGITS, EXPONENT_MAX, EXPONENT_MIN in *.
  destruct (Z.ltb_spec 6144 (Z.of_nat (List.length (DigitString.lhs ds))));
    [lia|].
  destruct (Z.ltb_spec (Z.of_nat (List.length (DigitString.lhs ds))) (-6143));
    [lia | reflexivity].
Qed.

Section Integer.

Variables (negative : bool) (l : string) (dl : list Digit).
Hypothesis Hl : DigitString.explodeDigits l = Ok dl.
Hypothesis Hne : l <> "".

Lemma handle_integer :
  handleDecimalNotation (sign negative ++ l)
  = Ok (mk false true (DigitString.mk dl []) negative).
Proof.
  destruct (DigitText.explodeDigits_ok l dl Hl) as (Ha & _).
  destruct (digits_text_plain l Hne Ha) as [Hu Hm].
  rewrite (handleDecimalNotation_signed negative l Hu Hm).
  destruct (exponent_of_integer_text l Hne Ha) as (e & -> & He).
  cbn [bind].
  rewrite (DigitText.split_no_dot l (DigitText.all_digits_no_dot l Ha)).
  cbn [hd_error]. unfold DigitString.new. rewrite Hl. cbn [bind].
  change (DigitString.explodeDigits "") with (@Ok (list Digit) []).
  cbn [bind].
  replace (0 <=? e) with true by (symmetry; now apply Z.leb_le).
  reflexivity.
Qed.

End Integer.

(** An integer literal of at most 34 digits, with or without a minus
    sign, builds the finite numeral with these digits and no fractional
    digit. *)
Lemma integer_literal (negative : bool) (l : string) (dl : list Digit) :
  DigitString.explodeDigits l = Ok dl -> l <> "" ->
  (String.length l <= 34)%nat ->
  new (sign negative ++ l)
  = Ok (mk false true (DigitString.mk dl []) negative).
Proof.
  intros Hl Hne Hlen.
  destruct (DigitText.explodeDigits_ok l dl Hl) as (Ha & Hn & _).
  rewrite (new_classified_decimal _ (integer_text_classified negative l Hne Ha)).
  rewrite (handle_integer negative l dl Hl Hne). cbn [bind].
  rewrite validate_finite.
  unfold DigitString.countSignificantDigits, MAX_SIGNIFICANT_DIGITS.
  cbn [DigitString.lhs DigitString.rhs List.length].
  destruct (Z.ltb_spec 34 (Z.of_nat (List.length dl) + Z.of_nat 0));
    [lia | reflexivity].
Qed.

(** An integer literal of more than 34 digits is refused with the
    integer-too-large error, whatever its digits (trailing zeros
    included). *)
Lemma long_integer_literal (negative : bool) (l : string)
    (dl : list Digit) :
  DigitString.explodeDigits l = Ok dl ->
  (34 < String.length l)%nat ->
  new (sign negative ++ l) = Throw (RangeError "Integer too large").
Proof.
  intros Hl Hlen.
  assert (Hne : l <> "") by (destruct l; [cbn in Hlen; lia | discriminate]).
  destruct (DigitText.explodeDigits_ok l dl Hl) as (Ha & Hn & _).
  rewrite (new_classified_decimal _ (integer_text_classified negative l Hne Ha)).
  rewrite (handle_integer negative l dl Hl Hne). cbn [bind].
  rewrite validate_finite.
  unfold DigitString.countSignificantDigits, MAX_SIGNIFICANT_DIGITS.
  cbn [DigitString.lhs DigitString.rhs List.length].
  destruct (Z.ltb_spec 34 (Z.of_nat (List.length dl) + Z.of_nat 0));
    [reflexivity | lia].
Qed.

(** *** Literals with a fractional part *)

(** The text of a digit sequence that was built from two digit texts. *)
Lemma toString_of_built (l r : string) (dl dr : list Digit) :
  DigitString.explodeDigits l = Ok dl ->
  DigitString.explodeDigits r = Ok dr ->
  DigitString.toString (DigitString.mk dl dr)
  = (if String.eqb "" l then "0" else l) ++ "." ++ r.
Proof.
  intros Hl Hr.
  destruct (DigitText.explodeDigits_ok l dl Hl) as (_ & _ & _ & Hjl).
  destruct (DigitText.explodeDigits_ok r dr Hr) as (_ & _ & _ & Hjr).
  unfold DigitString.toString. cbn [DigitString.lhs DigitString.rhs].
  rewrite Hjl, Hjr. destruct (String.eqb "" l); reflexivity.
Qed.

Lemma eqb_empty (l : string) : l <> "" -> String.eqb "" l = false.
Proof. destruct l; [congruence | reflexivity]. Qed.

(** [round] on a digit sequence built from two digit texts, the second
    one not empty: the integer part is kept, the first fractional digit
    is dropped, and a zero and the rounded final digit are appended. *)
Lemma round_of_built (l : string) (c : ascii) (r' : string)
    (dl dr : list Digit) (v : JS.jsval) (mode : RoundingMode) :
  DigitString.explodeDigits l = Ok dl -> l <> "" ->
  DigitString.explodeDigits (String c r') = Ok dr ->
  DigitString.round (DigitString.mk dl dr) v mode
  = DigitString.new l
      (r' ++ "0"
          ++ JS.to_string
               (DigitString.roundIt false v (JS.parseInt (String c "")) mode)).
Proof.
  intros Hl Hne Hr.
  destruct (DigitText.explodeDigits_ok l dl Hl) as (Hal & _).
  destruct (DigitText.explodeDigits_ok _ dr Hr) as (Har & _).
  unfold DigitString.round.
  rewrite (toString_of_built l (String c r') dl dr Hl Hr), (eqb_empty l Hne).
  rewrite (DigitText.split_decimal l (String c r') Hal Har).
  cbn [hd_error append].
  rewrite DigitText.substring_from_1.
  replace (JS.charAt (String c (r' ++ "0")) 0) with (String c "").
  - now rewrite DigitText.app_assoc.
  - unfold JS.charAt, JS.length. cbn [String.length].
    destruct (Z.leb_spec (Z.of_nat (S (String.length (r' ++ "0")))) 0);
      [lia | reflexivity].
Qed.

Section Decimal.

Variables (negative : bool) (l r : string) (dl dr : list Digit).
Hypothesis Hl : DigitString.explodeDigits l = Ok dl.
Hypothesis Hr : DigitString.explodeDigits r = Ok dr.
Hypothesis Hnel : l <> "".
Hypothesis Hner : r <> "".

Lemma handle_decimal_start :
  handleDecimalNotation (sign negative ++ l ++ "." ++ r)
  = (digits <-
       (if MAX_SIGNIFICANT_DIGITS <? countSignificantDigits (l ++ "." ++ r)
        then DigitString.round (DigitString.mk dl dr)
               (JS.parseInt (JS.charAt (significand (l ++ "." ++ r))
                                       MAX_SIGNIFICANT_DIGITS))
               ROUNDING_MODE_HALF_EVEN
        else Ok (DigitString.mk dl dr)) ;;
     Ok (mk false true digits negative)).
Proof.
  destruct (DigitText.explodeDigits_ok l dl Hl) as (Hal & _).
  destruct (DigitText.explodeDigits_ok r dr Hr) as (Har & _).
  destruct (decimal_text_plain l r Hnel Hal Har) as [Hu Hm].
  rewrite (handleDecimalNotation_signed negative _ Hu Hm).
  rewrite (exponent_of_decimal_text l r Hnel Hal Har). cbn [bind].
  rewrite (DigitText.split_decimal l r Hal Har). cbn [hd_error].
  unfold DigitString.new at 1. rewrite Hl, Hr. cbn [bind].
  replace (0 <=? 0 - JS.length r) with false; [reflexivity|].
  symmetry. apply Z.leb_gt. unfold JS.length.
  destruct r; [congruence | cbn [String.length]; lia].
Qed.

Lemma handle_decimal_short :
  (String.length l + String.length r <= 34)%nat ->
  handleDecimalNotation (sign negative ++ l ++ "." ++ r)
  = Ok (mk false true (DigitString.mk dl dr) negative).
Proof.
  intros Hlen. rewrite handle_decimal_start.
  destruct (DigitText.explodeDigits_ok l dl Hl) as (Hal & _).
  pose proof (countSignificantDigits_of_decimal_text l r Hnel Hal) as Hc.
  unfold MAX_SIGNIFICANT_DIGITS.
  destruct (Z.ltb_spec 34 (countSignificantDigits (l ++ "." ++ r)));
    [lia | reflexivity].
Qed.

Lemma handle_decimal_long (x : t) :
  (34 < String.length l + String.length r)%nat ->
  handleDecimalNotation (sign negative ++ l ++ "." ++ r) = Ok x ->
  isNaN x = false /\ isFinite x = true
  /\ 34 < DigitString.countSignificantDigits (digits x).
Proof.
  intros Hlen. rewrite handle_decimal_start.
  destruct (DigitText.explodeDigits_ok l dl Hl) as (_ & Hnl & _).
  destruct (DigitText.explodeDigits_ok r dr Hr) as (_ & Hnr & _).
  destruct (MAX_SIGNIFICANT_DIGITS <? _).
  - destruct r as [|c r']; [congruence|].
    rewrite (round_of_built l c r' dl dr _ _ Hl Hnel Hr).
    unfold DigitString.new. rewrite Hl. cbn [bind].
    destruct (DigitString.explodeDigits (r' ++ "0" ++ _)) as [dr'|e] eqn:E;
      cbn [bind]; [|discriminate].
    intros H. inversion H. subst x. cbn [isNaN isFinite digits].
    repeat split.
    destruct (DigitText.explodeDigits_ok _ dr' E) as (_ & Hn' & _).
    unfold DigitString.countSignificantDigits.
    cbn [DigitString.lhs DigitString.rhs].
    rewrite Hn', Hnl, !DigitText.length_app. cbn [String.length] in *. lia.
  - cbn [bind]. intros H. inversion H. subst x. cbn [isNaN isFinite digits].
    repeat split.
    unfold DigitString.countSignificantDigits.
    cbn [DigitString.lhs DigitString.rhs]. lia.
Qed.

End Decimal.

(** A literal with a fractional part and at most 34 digits in all, with
    or without a minus sign, builds the finite numeral with exactly
    these digits: nothing is normalised, leading and trailing zeros are
    kept. *)
Lemma decimal_literal (negative : bool) (l r : string)
    (dl dr : list Digit) :
  DigitString.explodeDigits l = Ok dl ->
  DigitString.explodeDigits r = Ok dr ->
  l <> "" -> r <> "" ->
  (String.length l + String.length r <= 34)%nat ->
  new (sign negative ++ l ++ "." ++ r)
  = Ok (mk false true (DigitString.mk dl dr) negative).
Proof.
  intros Hl Hr Hnel Hner Hlen.
  destruct (DigitText.explodeDigits_ok l dl Hl) as (Hal & Hnl & _).
  destruct (DigitText.explodeDigits_ok r dr Hr) as (Har & Hnr & _).
  rewrite (new_classified_decimal _
             (decimal_text_classified negative l r Hnel Hal Hner Har)).
  rewrite (handle_decimal_short negative l r dl dr Hl Hr Hnel Hner Hlen).
  cbn [bind]. rewrite validate_finite.
  unfold DigitString.countSignificantDigits, MAX_SIGNIFICANT_DIGITS.
  cbn [DigitString.lhs DigitString.rhs].
  destruct (Z.ltb_spec 34 (Z.of_nat (List.length dl) + Z.of_nat (List.length dr)));
    [lia | reflexivity].
Qed.

(** A literal with a fractional part and more than 34 digits in all is
    never accepted: the constructor raises the integer-too-large error,
    or the digit error when the rounding step produces no digit. *)
Lemma long_decimal_literal (negative : bool) (l r : string)
    (dl dr : list Digit) :
  DigitString.explodeDigits l = Ok dl ->
  DigitString.explodeDigits r = Ok dr ->
  l <> "" -> r <> "" ->
  (34 < String.length l + String.length r)%nat ->
  new (sign negative ++ l ++ "." ++ r) = Throw (RangeError "Integer too large")
  \/ new (sign negative ++ l ++ "." ++ r) = Throw (Error "Not a digit").
Proof.
  intros Hl Hr Hnel Hner Hlen.
  destruct (DigitText.explodeDigits_ok l dl Hl) as (Hal & Hnl & _).
  destruct (DigitText.explodeDigits_ok r dr Hr) as (Har & Hnr & _).
  rewrite (new_classified_decimal _
             (decimal_text_classified negative l r Hnel Hal Hner Har)).
  pose proof (handle_decimal_long negative l r dl dr Hl Hr Hnel Hner) as Hx.
  pose proof (handle_decimal_start negative l r dl dr Hl Hr Hnel Hner) as Hs.
  destruct (handleDecimalNotation (sign negative ++ l ++ "." ++ r))
    as [x|e] eqn:E; cbn [bind].
  - destruct (Hx x Hlen eq_refl) as (Hnan & Hfin & Hbig).
    left. destruct x as [nan fin ds neg]. cbn in Hnan, Hfin, Hbig. subst.
    rewrite validate_finite.
    destruct (Z.ltb_spec MAX_SIGNIFICANT_DIGITS
                (DigitString.countSignificantDigits ds));
      [reflexivity | unfold MAX_SIGNIFICANT_DIGITS in *; lia].
  - right. f_equal.
    destruct (MAX_SIGNIFICANT_DIGITS <? _) in Hs.
    + destruct (DigitString.round _ _ _) as [d'|e'] eqn:Er in Hs;
        cbn [bind] in Hs; [discriminate Hs|].
      inversion Hs. subst e'. now apply DigitStringFacts.round_throw in Er.
    + discriminate Hs.
Qed.

End Literals.

(** ** The digit-string engine on well-formed digits *)

Module DigitStringTheorems.
Import Common DigitString Shapes.

Lemma explodeDigits_app (a b : string) (x y : list Digit) :
  explodeDigits a = Ok x -> explodeDigits b = Ok y ->
  explodeDigits (a ++ b) = Ok (x ++ y)%list.
Proof.
  revert x. induction a as [|c a IH]; intros x Ha Hb.
  - inversion Ha. exact Hb.
  - rewrite DigitText.explodeDigits_cons in Ha. cbn [append].
    rewrite DigitText.explodeDigits_cons.
    destruct (integerCharToDigit c) as [d|e]; [|discriminate Ha].
    destruct (explodeDigits a) as [ds|e]; [|discriminate Ha].
    cbn [bind] in *. inversion Ha. subst x.
    rewrite (IH ds eq_refl Hb). reflexivity.
Qed.

(** The text of a list of digits: exploding it gives the digits back,
    it is as long as the list, and it is empty only for the empty
    list. *)
Lemma text_of_digits (ds : list Digit) :
  is_digits ds ->
  explodeDigits (JS.join ds) = Ok ds
  /\ String.length (JS.join ds) = List.length ds
  /\ (ds <> [] -> JS.join ds <> "").
Proof.
  intros H. pose proof (DigitText.explodeDigits_join ds H) as He.
  destruct (DigitText.explodeDigits_ok _ _ He) as (_ & Hn & _).
  repeat split; [exact He | now symmetry | now apply DigitText.join_nonempty].
Qed.

Lemma text_of_rounded (v : Z) :
  0 <= v <= 10 -> explodeDigits (JS.Z_to_string v) = Ok (digits_of_rounded v).
Proof.
  intros H.
  assert (v = 0 \/ v = 1 \/ v = 2 \/ v = 3 \/ v = 4 \/ v = 5 \/ v = 6
          \/ v = 7 \/ v = 8 \/ v = 9 \/ v = 10) as Hv by lia.
  repeat (destruct Hv as [-> | Hv]; [reflexivity|]). now subst v.
Qed.


Lemma length_digits_of_rounded (v : Z) :
  (1 <= List.length (digits_of_rounded v) <= 2)%nat.
Proof. unfold digits_of_rounded. destruct (v =? 10); cbn; lia. Qed.

Lemma parseInt_digit_char (c : ascii) (d : Digit) :
  integerCharToDigit c = Ok d -> JS.parseInt (String c "") = JS.JNum d.
Proof.
  destruct c as [[] [] [] [] [] [] [] []]; intros H;
    first [discriminate H | inversion H; reflexivity].
Qed.

(** X1.  When [explodeDigits] succeeds, the text is made of decimal
    digits only, it yields one digit in 0-9 per character, and joining
    the digits gives the text back. *)
Theorem explodeDigits_then_join :
  forall (s : string) (ds : list Digit),
    explodeDigits s = Ok ds ->
    JS.all_digits s = true
    /\ List.length ds = String.length s
    /\ is_digits ds
    /\ JS.join ds = s.
Proof.
  intros s ds H. exact (DigitText.explodeDigits_ok s ds H).
Qed.

Lemma explodeDigits_then_join_witness :
  JS.all_digits "0420" = true
  /\ List.length [0; 4; 2; 0] = String.length "0420"
  /\ is_digits [0; 4; 2; 0]
  /\ JS.join [0; 4; 2; 0] = "0420".
Proof.
  apply (explodeDigits_then_join "0420" [0; 4; 2; 0]). reflexivity.
Defined.


(** [round] on well-formed digits, with the fractional part not empty:
    the deciding digit is the first fractional digit; that digit is
    dropped, and a zero and the rounded final digit are appended. *)
Lemma round_on_digits (dl dr : list Digit) (d : Z) (mode : RoundingMode) :
  is_digits dl -> is_digits dr -> dl <> [] -> dr <> [] -> 0 <= d <= 9 ->
  exists v : Z,
    roundIt false (JS.JNum d) (JS.JNum (hd 0 dr)) mode = JS.JNum v
    /\ (v = d \/ v = d + 1)
    /\ round (mk dl dr) (JS.JNum d) mode
       = Ok (mk dl (tl dr ++ 0 :: digits_of_rounded v)%list).
Proof.
  intros Hl Hr Hnel Hner Hd.
  destruct dr as [|d0 dr']; [congruence|]. cbn [hd tl].
  pose proof (Forall_inv Hr) as Hd0. pose proof (Forall_inv_tail Hr) as Hr'.
  destruct (text_of_digits dl Hl) as (Hel & _ & Hne).
  destruct (text_of_digits dr' Hr') as (Her' & _).
  destruct (DigitText.digit_renders d0 Hd0) as (c0 & Hc0 & Hi0).
  assert (Her : explodeDigits (String c0 (JS.join dr')) = Ok (d0 :: dr')).
  { rewrite DigitText.explodeDigits_cons, Hi0, Her'. reflexivity. }
  destruct (DigitStringFacts.roundIt_rounds_up_values false mode d d0 Hd Hd0)
    as [Hv | Hv].
  - exists d. split; [exact Hv|]. split; [now left|].
    rewrite (Literals.round_of_built (JS.join dl) c0 (JS.join dr') dl
               (d0 :: dr') _ mode Hel (Hne Hnel) Her).
    rewrite (parseInt_digit_char c0 d0 Hi0), Hv. cbn [JS.to_string].
    unfold new. rewrite Hel. cbn [bind].
    rewrite (explodeDigits_app _ _ dr' (0 :: digits_of_rounded d) Her');
      [reflexivity|].
    apply (explodeDigits_app "0" _ [0]); [reflexivity|].
    apply text_of_rounded. lia.
  - exists (d + 1). split; [exact Hv|]. split; [now right|].
    rewrite (Literals.round_of_built (JS.join dl) c0 (JS.join dr') dl
               (d0 :: dr') _ mode Hel (Hne Hnel) Her).
    rewrite (parseInt_digit_char c0 d0 Hi0), Hv. cbn [JS.to_string].
    unfold new. rewrite Hel. cbn [bind].
    rewrite (explodeDigits_app _ _ dr' (0 :: digits_of_rounded (d + 1)) Her');
      [reflexivity|].
    apply (explodeDigits_app "0" _ [0]); [reflexivity|].
    apply text_of_rounded. lia.
Qed.

(** X3.  [DigitString.round] never shortens a digit sequence and never
    carries: on well-formed digits it keeps the integer part, drops the
    first fractional digit, and appends a zero and the final digit, kept
    or raised by one; a final digit raised from 9 is appended as the two
    digits 1, 0. *)
Theorem round_drops_first_and_appends :
  forall (dl dr : list Digit) (d : Z) (mode : RoundingMode),
    is_digits dl -> is_digits dr -> dl <> [] -> dr <> [] -> 0 <= d <= 9 ->
    exists (v : Z) (ds : t),
      (v = d \/ v = d + 1)
      /\ round (mk dl dr) (JS.JNum d) mode = Ok ds
      /\ lhs ds = dl
      /\ rhs ds = (tl dr ++ 0 :: digits_of_rounded v)%list
      /\ countSignificantDigits (mk dl dr) < countSignificantDigits ds.
Proof.
  intros dl dr d mode Hl Hr Hnel Hner Hd.
  destruct (round_on_digits dl dr d mode Hl Hr Hnel Hner Hd)
    as (v & _ & Hv & Hround).
  exists v, (mk dl (tl dr ++ 0 :: digits_of_rounded v)%list).
  repeat split; try assumption.
  unfold countSignificantDigits. cbn [lhs rhs].
  rewrite List.length_app. cbn [List.length].
  pose proof (length_digits_of_rounded v).
  destruct dr as [|d0 dr']; [congruence|]. cbn [tl List.length]. lia.
Qed.

Lemma round_drops_first_and_appends_witness :
  exists (v : Z) (ds : t),
    (v = 9 \/ v = 9 + 1)
    /\ round (mk [9] [9; 5]) (JS.JNum 9) ROUNDING_MODE_HALF_EXPAND = Ok ds
    /\ lhs ds = [9]
    /\ rhs ds = (tl [9; 5] ++ 0 :: digits_of_rounded v)%list
    /\ countSignificantDigits (mk [9] [9; 5]) < countSignificantDigits ds.
Proof.
  apply (round_drops_first_and_appends [9] [9; 5] 9 ROUNDING_MODE_HALF_EXPAND);
    try (repeat constructor; lia); try discriminate; lia.
Defined.

End DigitStringTheorems.

(** ** The constructor *)

Module ConstructorTheorems.
Import Common Decimal128 Shapes Automaton AutomatonFacts.

(** X4.  An integer literal of at most 34 digits, with or without a
    minus sign, builds the finite numeral that holds exactly these
    digits (leading zeros included) and no fractional digit. *)
Theorem integer_literal_is_kept :
  forall (negative : bool) (l : string) (dl : list Digit),
    DigitString.explodeDigits l = Ok dl -> l <> "" ->
    (String.length l <= 34)%nat ->
    new (sign negative ++ l) = Ok (finite negative dl []).
Proof.
  intros negative l dl Hl Hne Hlen.
  exact (Literals.integer_literal negative l dl Hl Hne Hlen).
Qed.

Lemma integer_literal_is_kept_witness :
  new (sign true ++ "042") = Ok (finite true [0; 4; 2] []).
Proof.
  apply (integer_literal_is_kept true "042" [0; 4; 2]);
    [reflexivity | discriminate | cbn; lia].
Defined.

(** X5.  An integer literal of more than 34 digits is refused with the
    integer-too-large error, whatever its digits: leading and trailing
    zeros count. *)
Theorem long_integer_literal_is_refused :
  forall (negative : bool) (l : string) (dl : list Digit),
    DigitString.explodeDigits l = Ok dl ->
    (34 < String.length l)%nat ->
    new (sign negative ++ l) = Throw (RangeError "Integer too large").
Proof.
  intros negative l dl Hl Hlen.
  exact (Literals.long_integer_literal negative l dl Hl Hlen).
Qed.

Lemma long_integer_literal_is_refused_witness :
  new (sign false ++ "00000000000000000000000000000000001")
  = Throw (RangeError "Integer too large").
Proof.
  apply (long_integer_literal_is_refused false
           "00000000000000000000000000000000001"
           [0;0;0;0;0;0;0;0;0;0;0;0;0;0;0;0;0;0;0;0;0;0;0;0;0;0;0;0;0;0;0;0;0;0;1]);
    [reflexivity | cbn; lia].
Defined.

(** X6.  A literal with digits on both sides of the point and at most 34
    digits in all, with or without a minus sign, builds the finite
    numeral with exactly these digits: nothing is normalised. *)
Theorem decimal_literal_is_kept :
  forall (negative : bool) (l r : string) (dl dr : list Digit),
    DigitString.explodeDigits l = Ok dl ->
    DigitString.explodeDigits r = Ok dr ->
    l <> "" -> r <> "" ->
    (String.length l + String.length r <= 34)%nat ->
    new (sign negative ++ l ++ "." ++ r) = Ok (finite negative dl dr).
Proof.
  intros negative l r dl dr Hl Hr Hnel Hner Hlen.
  exact (Literals.decimal_literal negative l r dl dr Hl Hr Hnel Hner Hlen).
Qed.

Lemma decimal_literal_is_kept_witness :
  new (sign true ++ "007" ++ "." ++ "50") = Ok (finite true [0; 0; 7] [5; 0]).
Proof.
  apply (decimal_literal_is_kept true "007" "50" [0; 0; 7] [5; 0]);
    [reflexivity | reflexivity | discriminate | discriminate | cbn; lia].
Defined.

(** X7.  A literal with digits on both sides of the point and more than
    34 digits in all is never accepted, however few of them are
    significant: the constructor raises the integer-too-large error, or
    the digit error when the rounding step finds no digit to round. *)
Theorem long_decimal_literal_is_refused :
  forall (negative : bool) (l r : string) (dl dr : list Digit),
    DigitString.explodeDigits l = Ok dl ->
    DigitString.explodeDigits r = Ok dr ->
    l <> "" -> r <> "" ->
    (34 < String.length l + String.length r)%nat ->
    new (sign negative ++ l ++ "." ++ r)
    = Throw (RangeError "Integer too large")
    \/ new (sign negative ++ l ++ "." ++ r) = Throw (Error "Not a digit").
Proof.
  intros negative l r dl dr Hl Hr Hnel Hner Hlen.
  exact (Literals.long_decimal_literal negative l r dl dr Hl Hr Hnel Hner Hlen).
Qed.

Lemma long_decimal_literal_is_refused_witness :
  new (sign false ++ "0" ++ "." ++ "0000000000000000000000000000000001")
  = Throw (RangeError "Integer too large")
  \/ new (sign false ++ "0" ++ "." ++ "0000000000000000000000000000000001")
     = Throw (Error "Not a digit").
Proof.
  apply (long_decimal_literal_is_refused false "0"
           "0000000000000000000000000000000001" [0]
           [0;0;0;0;0;0;0;0;0;0;0;0;0;0;0;0;0;0;0;0;0;0;0;0;0;0;0;0;0;0;0;0;0;1]);
    [reflexivity | reflexivity | discriminate | discriminate | cbn; lia].
Defined.

(** *** What every constructed numeral satisfies *)

Lemma handleDecimalNotation_shape (s : string) (x : t) :
  handleDecimalNotation s = Ok x ->
  isNaN x = false /\ isFinite x = true
  /\ is_digits (DigitString.lhs (digits x))
  /\ is_digits (DigitString.rhs (digits x)).
Proof.
  unfold handleDecimalNotation.
  destruct (exponent _) as [exp|e]; cbn [bind]; [|discriminate].
  destruct (JS.split_on JS.is_dot _) as [lhs rest].
  assert (Hnew : forall a b d, DigitString.new a b = Ok d ->
                   is_digits (DigitString.lhs d)
                   /\ is_digits (DigitString.rhs d)).
  { intros a b d. unfold DigitString.new.
    destruct (DigitString.explodeDigits a) as [da|e] eqn:Ea;
      cbn [bind]; [|discriminate].
    destruct (DigitString.explodeDigits b) as [db|e] eqn:Eb;
      cbn [bind]; [|discriminate].
    intros H. inversion H. cbn.
    destruct (DigitText.explodeDigits_ok a da Ea) as (_ & _ & Hfa & _).
    destruct (DigitText.explodeDigits_ok b db Eb) as (_ & _ & Hfb & _).
    now split. }
  destruct (DigitString.new lhs _) as [d|e] eqn:Ed; cbn [bind]; [|discriminate].
  destruct (negb (0 <=? exp) && _).
  - destruct (DigitString.round d _ _) as [d'|e] eqn:Er;
      cbn [bind]; [|discriminate].
    intros H. inversion H. cbn. unfold DigitString.round in Er.
    destruct (JS.split_on JS.is_dot (DigitString.toString d)) as [l0 r0].
    destruct (Hnew _ _ _ Er). auto.
  - cbn [bind]. intros H. inversion H. cbn.
    destruct (Hnew _ _ _ Ed). auto.
Qed.

Lemma new_cases (n : string) (x : t) :
  new n = Ok x ->
  (exists negative, x = mk true false (DigitString.mk [] []) negative)
  \/ (exists negative, x = infinity negative)
  \/ (exists s, handleDecimalNotation s = Ok x
                /\ validateConstructorData x = Ok tt).
Proof.
  unfold new.
  destruct (Regex.matches nanRegExp n).
  { cbn. intros H. inversion H. left. eexists. reflexivity. }
  destruct (Regex.matches exponentRegExp n).
  { unfold handleExponentialNotation.
    destruct (handleDecimalNotation _) as [d|e] eqn:E; cbn [bind];
      [|discriminate].
    destruct (validateConstructorData d) as [[]|e] eqn:Ev; cbn [bind];
      [|discriminate].
    intros H. inversion H. subst. right; right. eauto. }
  destruct (Regex.matches digitStrRegExp n).
  { destruct (handleDecimalNotation _) as [d|e] eqn:E; cbn [bind];
      [|discriminate].
    destruct (validateConstructorData d) as [[]|e] eqn:Ev; cbn [bind];
      [|discriminate].
    intros H. inversion H. subst. right; right. eauto. }
  destruct (Regex.matches infRegExp n).
  { cbn. intros H. inversion H. right; left. eexists. reflexivity. }
  cbn. discriminate.
Qed.

(** X8.  Every numeral that the constructor returns is of one of three
    kinds: a NaN or an infinity, which are not finite and hold no digit,
    or a finite numeral that is not NaN, whose digits are all in 0-9 and
    whose two parts hold at most 34 digits together. *)
Theorem constructed_numeral_invariant :
  forall (n : string) (x : t),
    new n = Ok x ->
    (isNaN x = true -> isFinite x = false)
    /\ (isFinite x = false -> digits x = DigitString.mk [] [])
    /\ (isFinite x = true ->
        isNaN x = false
        /\ is_digits (DigitString.lhs (digits x))
        /\ is_digits (DigitString.rhs (digits x))
        /\ DigitString.countSignificantDigits (digits x) <= 34).
Proof.
  intros n x H.
  destruct (new_cases n x H) as [[neg ->] | [[neg ->] | (s & Hs & Hv)]].
  - cbn. repeat split; try discriminate; reflexivity.
  - cbn. repeat split; try discriminate; reflexivity.
  - destruct (handleDecimalNotation_shape s x Hs) as (Hnan & Hfin & Hl & Hr).
    repeat split; try congruence; try assumption.
    destruct x as [nan fin ds neg]. cbn in *. subst.
    rewrite Literals.validate_finite in Hv. unfold MAX_SIGNIFICANT_DIGITS in Hv.
    destruct (Z.ltb_spec 34 (DigitString.countSignificantDigits ds));
      [discriminate Hv | assumption].
Qed.

Lemma constructed_numeral_invariant_witness :
  (isNaN (finite true [1] [5]) = true -> isFinite (finite true [1] [5]) = false)
  /\ (isFinite (finite true [1] [5]) = false ->
      digits (finite true [1] [5]) = DigitString.mk [] [])
  /\ (isFinite (finite true [1] [5]) = true ->
      isNaN (finite true [1] [5]) = false
      /\ is_digits (DigitString.lhs (digits (finite true [1] [5])))
      /\ is_digits (DigitString.rhs (digits (finite true [1] [5])))
      /\ DigitString.countSignificantDigits (digits (finite true [1] [5]))
         <= 34).
Proof.
  apply (constructed_numeral_invariant "-1.5" (finite true [1] [5])).
  reflexivity.
Defined.



End ConstructorTheorems.

(** ** The operations on well-formed numerals *)

Module OperationTheorems.
Import Common Decimal128 Shapes Automaton AutomatonFacts DigitStringTheorems.

Section WellFormed.

Variables (dl dr : list Digit).
Hypothesis Hl : is_digits dl.
Hypothesis Hr : is_digits dr.
Hypothesis Hne : dl <> [].

Lemma toString_finite (negative : bool) :
  toString (finite negative dl dr) = JS.join dl ++ "." ++ JS.join dr.
Proof.
  destruct (text_of_digits dl Hl) as (Hel & _ & Hnel).
  destruct (text_of_digits dr Hr) as (Her & _).
  unfold toString, finite. cbn [isNaN isFinite digits negb].
  rewrite (Literals.toString_of_built _ _ dl dr Hel Her).
  now rewrite (Literals.eqb_empty _ (Hnel Hne)).
Qed.

Lemma new_decimal_digits (negative : bool) :
  dr <> [] -> (List.length dl + List.length dr <= 34)%nat ->
  new (sign negative ++ JS.join dl ++ "." ++ JS.join dr)
  = Ok (finite negative dl dr).
Proof.
  intros Hner Hlen.
  destruct (text_of_digits dl Hl) as (Hel & Hnl & Hnel).
  destruct (text_of_digits dr Hr) as (Her & Hnr & Hner').
  apply Literals.decimal_literal; auto. lia.
Qed.


Lemma new_trailing_point (negative : bool) :
  new (sign negative ++ JS.join dl ++ ".")
  = Throw (SyntaxError "Illegal number format").
Proof.
  destruct (text_of_digits dl Hl) as (Hel & _ & Hnel).
  destruct (DigitText.explodeDigits_ok _ _ Hel) as (Ha & _).
  apply new_unclassified. apply trailing_point_unclassified; auto.
Qed.

End WellFormed.

(** X10.  Round trip through text: for a finite numeral with well-formed
    digits, at most 34 of them, and a fractional part that is not empty,
    the constructor accepts the [toString()] text and gives the same
    digits back, but always as a non-negative numeral: the sign of a
    finite numeral is not written. *)
Theorem toString_then_new :
  forall (negative : bool) (dl dr : list Digit),
    is_digits dl -> is_digits dr -> dl <> [] -> dr <> [] ->
    (List.length dl + List.length dr <= 34)%nat ->
    new (toString (finite negative dl dr)) = Ok (finite false dl dr).
Proof.
  intros negative dl dr Hl Hr Hnel Hner Hlen.
  rewrite (toString_finite dl dr Hl Hr Hnel).
  exact (new_decimal_digits dl dr Hl Hr Hnel false Hner Hlen).
Qed.

Lemma toString_then_new_witness :
  new (toString (finite true [1; 2] [5])) = Ok (finite false [1; 2] [5]).
Proof.
  apply (toString_then_new true [1; 2] [5]);
    first [discriminate | cbn; lia | repeat constructor; lia].
Defined.

(** X11.  For a finite numeral with well-formed digits and no fractional
    digit, as every integer literal builds, the [toString()] text ends
    in a point and the constructor refuses it. *)
Theorem toString_of_integer_is_refused :
  forall (negative : bool) (dl : list Digit),
    is_digits dl -> dl <> [] ->
    new (toString (finite negative dl []))
    = Throw (SyntaxError "Illegal number format").
Proof.
  intros negative dl Hl Hne.
  rewrite (toString_finite dl [] Hl (Forall_nil _) Hne).
  exact (new_trailing_point dl Hl Hne false).
Qed.

Lemma toString_of_integer_is_refused_witness :
  new (toString (finite false [4; 2] []))
  = Throw (SyntaxError "Illegal number format").
Proof.
  apply (toString_of_integer_is_refused false [4; 2]);
    first [discriminate | cbn; lia | repeat constructor; lia].
Defined.



Lemma starts_with_minus_text (dl : list Digit) (rest : string) :
  is_digits dl -> dl <> [] ->
  JS.starts_with_minus (JS.join dl ++ rest) = false.
Proof.
  intros Hl Hne. destruct dl as [|d dl]; [congruence|].
  rewrite DigitText.join_cons.
  destruct (DigitText.digit_renders d (Forall_inv Hl)) as (c & -> & Hc).
  cbn [append].
  destruct (DigitText.integerCharToDigit_ok c d Hc) as (Hdig & _).
  now apply Literals.starts_with_minus_digit.
Qed.

Lemma negate_finite (negative : bool) (dl dr : list Digit) :
  is_digits dl -> is_digits dr -> dl <> [] ->
  (List.length dl + List.length dr <= 34)%nat ->
  negate (finite negative dl dr)
  = match dr with
    | [] => Throw (SyntaxError "Illegal number format")
    | _ :: _ => Ok (finite true dl dr)
    end.
Proof.
  intros Hl Hr Hne Hlen. unfold negate.
  rewrite (toString_finite dl dr Hl Hr Hne).
  rewrite (starts_with_minus_text dl _ Hl Hne).
  destruct dr as [|d0 dr'].
  - exact (new_trailing_point dl Hl Hne true).
  - exact (new_decimal_digits dl (d0 :: dr') Hl Hr Hne true
             ltac:(discriminate) Hlen).
Qed.



Lemma negate_flips_infinity_any (ds : DigitString.t) (negative : bool) :
  negate (mk false false ds negative) = Ok (infinity (negb negative)).
Proof.
  unfold negate, toString. cbn [isNaN isFinite isNegative negb].
  destruct negative; vm_compute; reflexivity.
Qed.



End OperationTheorems.

(** ** Rounding and arithmetic on well-formed numerals *)

Module ArithmeticTheorems.
Import Common Decimal128 Shapes Reference Automaton AutomatonFacts.
Import DigitStringTheorems OperationTheorems.





Section Arithmetic.

Variable toDecimalPlaces : Rational.t -> Z -> string.

(** X16.  [remainder] of a negative finite numeral with well-formed
    digits and a fractional part never returns: negating the operand
    gives the same negative numeral, so the method calls itself until
    the call stack is exhausted, whatever the divisor (not NaN). *)
Theorem remainder_of_negative_overflows :
  forall (dl dr : list Digit) (d : t) (depth : nat),
    is_digits dl -> is_digits dr -> dl <> [] -> dr <> [] ->
    (List.length dl + List.length dr <= 34)%nat ->
    isNaN d = false ->
    remainder toDecimalPlaces depth (finite true dl dr) d
    = Throw (RangeError "Maximum call stack size exceeded").
Proof.
  intros dl dr d depth Hl Hr Hnel Hner Hlen Hd.
  induction depth as [|depth IH]; [reflexivity|].
  cbn [remainder]. cbn [finite isNaN isNegative]. rewrite Hd. cbn [orb].
  fold (finite true dl dr).
  rewrite (negate_finite true dl dr Hl Hr Hnel Hlen).
  destruct dr as [|d0 dr']; [congruence|].
  cbn [bind]. rewrite IH. reflexivity.
Qed.

(** X17.  [remainder] of two finite numerals that are not negative is
    NaN: the quotient is NaN, since [divide] takes every finite divisor
    for zero, and NaN goes through [round], [multiply], [subtract] and
    [abs]. *)
Theorem remainder_of_finite_is_NaN :
  forall (this d : t) (depth : nat),
    isNaN this = false -> isFinite this = true -> isNegative this = false ->
    isNaN d = false -> isFinite d = true -> isNegative d = false ->
    remainder toDecimalPlaces (S depth) this d = Ok quietNaN.
Proof.
  intros this d depth Hn Hf Hs Hdn Hdf Hds.
  cbn [remainder]. rewrite Hn, Hdn, Hs, Hds, Hf, Hdf. cbn [orb negb].
  rewrite (SpecialValues.divide_by_finite toDecimalPlaces this d Hdn Hdf).
  cbn [bind].
  rewrite (SpecialValues.round_NaN quietNaN 0 ROUNDING_MODE_DEFAULT)
    by (reflexivity || lia).
  cbn [bind].
  destruct (SpecialValues.multiply_NaN toDecimalPlaces quietNaN d eq_refl)
    as [_ ->].
  cbn [bind].
  destruct (SpecialValues.subtract_NaN toDecimalPlaces quietNaN this eq_refl)
    as [_ ->].
  reflexivity.
Qed.

(** X18.  The product of an infinity and a finite numeral is NaN, in
    either order and whatever the finite numeral: [isZero()] holds of
    every finite numeral. *)
Theorem multiply_infinity_by_finite :
  forall this x : t,
    isNaN this = false -> isFinite this = false ->
    isNaN x = false -> isFinite x = true ->
    multiply toDecimalPlaces this x = Ok quietNaN
    /\ multiply toDecimalPlaces x this = Ok quietNaN.
Proof.
  intros this x Hn Hf Hxn Hxf.
  pose proof (SpecialValues.isZero_of_finite x Hxn Hxf) as Hz.
  unfold multiply. rewrite Hn, Hf, Hxn, Hxf, Hz. cbn [orb negb].
  split; reflexivity.
Qed.

(** X19.  All of [divide]: the result is NaN whenever an operand is NaN,
    the divisor is finite or the dividend is infinite; a finite dividend
    over an infinite divisor gives a zero, negative when the signs
    differ.  No quotient of two finite numerals is ever computed. *)
Theorem divide_is_NaN_or_zero :
  forall this x : t,
    divide toDecimalPlaces this x
    = if isNaN this || isNaN x || isFinite x || negb (isFinite this)
      then Ok quietNaN
      else Ok (finite (xorb (isNegative this) (isNegative x)) [0] []).
Proof.
  intros this x. rewrite SpecialValues.divide_characterised.
  destruct (isNaN this || isNaN x || isFinite x || negb (isFinite this));
    [reflexivity|].
  destruct (isNegative this), (isNegative x); reflexivity.
Qed.

(** X20.  [ceil] returns every finite numeral unchanged, fractional
    digits included, and [reciprocal] of a numeral is NaN unless the
    numeral is an infinity, when it is a zero of the same sign. *)
Theorem ceil_and_reciprocal :
  forall x : t,
    (isNaN x = false -> isFinite x = true -> ceil toDecimalPlaces x = Ok x)
    /\ reciprocal toDecimalPlaces x
       = if isNaN x || isFinite x then Ok quietNaN
         else Ok (finite (isNegative x) [0] []).
Proof.
  intros x. split.
  - intros Hn Hf. unfold ceil, isInteger. rewrite Hn, Hf. cbn [negb andb].
    replace (0 <=? DigitString.exponent (digits x)) with true; [reflexivity|].
    symmetry. apply Z.leb_le. unfold DigitString.exponent. lia.
  - unfold reciprocal. change (new "1") with (Ok (finite false [1] [])).
    cbn [bind]. rewrite SpecialValues.divide_characterised.
    cbn [finite isNaN isFinite isNegative negb orb].
    rewrite orb_false_r.
    destruct (isNaN x || isFinite x); [reflexivity|].
    destruct (isNegative x); reflexivity.
Qed.

(** Subtracting an infinity from a finite numeral gives the infinity of
    the other sign (with no digits, whatever digits the operand
    carries), and subtracting a finite numeral from an infinity gives
    that infinity back. *)
Lemma subtract_with_infinity :
  forall (this : t) (ds : DigitString.t) (negative : bool),
    isNaN this = false -> isFinite this = true ->
    subtract toDecimalPlaces this (mk false false ds negative)
    = Ok (infinity (negb negative))
    /\ subtract toDecimalPlaces (mk false false ds negative) this
       = Ok (mk false false ds negative).
Proof.
  intros this ds negative Hn Hf. unfold subtract.
  cbn [isNaN isFinite isNegative negb orb]. rewrite Hn, Hf. cbn [negb orb].
  split; [|reflexivity].
  apply OperationTheorems.negate_flips_infinity_any.
Qed.

End Arithmetic.

Lemma remainder_of_negative_overflows_witness :
  remainder (fun _ _ => "0") 1000 (finite true [7] [0]) (finite false [3] [])
  = Throw (RangeError "Maximum call stack size exceeded").
Proof.
  apply (remainder_of_negative_overflows (fun _ _ => "0") [7] [0] (finite false [3] []) 1000);
    first [discriminate | reflexivity | cbn; lia | repeat constructor; lia].
Defined.

Lemma remainder_of_finite_is_NaN_witness :
  remainder (fun _ _ => "0") 1 (finite false [7] []) (finite false [3] [])
  = Ok quietNaN.
Proof.
  apply (remainder_of_finite_is_NaN (fun _ _ => "0") (finite false [7] [])
           (finite false [3] []) 0); reflexivity.
Defined.

Lemma multiply_infinity_by_finite_witness :
  multiply (fun _ _ => "0") (infinity false) (finite false [5] [])
  = Ok quietNaN
  /\ multiply (fun _ _ => "0") (finite false [5] []) (infinity false)
     = Ok quietNaN.
Proof.
  apply (multiply_infinity_by_finite (fun _ _ => "0") (infinity false) (finite false [5] []));
    reflexivity.
Defined.

Lemma ceil_and_reciprocal_witness :
  ceil (fun _ _ => "0") (finite false [1] [5]) = Ok (finite false [1] [5]).
Proof.
  apply (proj1 (ceil_and_reciprocal (fun _ _ => "0") (finite false [1] [5]))); reflexivity.
Defined.

Lemma subtract_with_infinity_witness :
  subtract (fun _ _ => "0") (finite false [5] []) (infinity false)
  = Ok (infinity (negb false))
  /\ subtract (fun _ _ => "0") (infinity false) (finite false [5] [])
     = Ok (infinity false).
Proof.
  apply (subtract_with_infinity (fun _ _ => "0") (finite false [5] []) (DigitString.mk [] [])
           false); reflexivity.
Defined.

End ArithmeticTheorems.

(** ** Cutting to a number of decimal places *)

Module DecimalPlacesTheorems.
Import Common Decimal128 Shapes Automaton AutomatonFacts.
Import DigitStringTheorems OperationTheorems.

Lemma join_app (a b : list Digit) :
  JS.join (a ++ b)%list = JS.join a ++ JS.join b.
Proof.
  induction a as [|d a IH]; [reflexivity|].
  cbn [List.app]. rewrite !DigitText.join_cons, IH.
  now rewrite DigitText.app_assoc.
Qed.

Lemma substring_prefix (a b : string) :
  JS.substring (a ++ b) 0 (Z.of_nat (String.length a)) = a.
Proof.
  unfold JS.substring, JS.clamp, JS.length.
  rewrite DigitText.length_app.
  set (n := String.length a). set (m := String.length b).
  replace (Z.max 0 (Z.min 0 (Z.of_nat (n + m)))) with 0 by lia.
  replace (Z.max 0 (Z.min (Z.of_nat n) (Z.of_nat (n + m))))
    with (Z.of_nat n) by lia.
  replace (Z.min 0 (Z.of_nat n)) with 0 by lia.
  replace (Z.max 0 (Z.of_nat n)) with (Z.of_nat n) by lia.
  rewrite Z.sub_0_r, Nat2Z.id. change (Z.to_nat 0) with 0%nat.
  subst n. clear m. induction a as [|c a IH]; cbn.
  - now destruct b.
  - now rewrite IH.
Qed.

Lemma charAt_after_prefix (a : string) (c : ascii) (b : string) :
  JS.charAt (a ++ String c b) (Z.of_nat (String.length a)) = String c "".
Proof.
  unfold JS.charAt, JS.length. rewrite DigitText.length_app.
  cbn [String.length].
  destruct (Z.ltb_spec (Z.of_nat (String.length a)) 0); [lia|].
  destruct (Z.leb_spec (Z.of_nat (String.length a + S (String.length b)))
                       (Z.of_nat (String.length a))); [lia|].
  cbn [orb]. rewrite Nat2Z.id.
  replace (String.get (String.length a) (a ++ String c b)) with (Some c);
    [reflexivity|].
  clear. induction a as [|x a IH]; cbn; [reflexivity | exact IH].
Qed.

Section WellFormed.

Variables (negative : bool) (dl dr : list Digit).
Hypothesis Hl : is_digits dl.
Hypothesis Hr : is_digits dr.
Hypothesis Hne : dl <> [].

Lemma toDecimalPlaces_start (n : Z) :
  1 <= n ->
  toDecimalPlaces (finite negative dl dr) n
  = if Z.of_nat (List.length dr) <=? n
    then new (JS.join dl ++ "." ++ JS.join dr)
    else new (JS.join dl ++ "." ++ JS.substring (JS.join dr) 0 (n - 1)
                ++ JS.to_string
                     (JS.succ (JS.parseInt (JS.charAt (JS.join dr) (n - 1))))).
Proof.
  intros Hn. unfold toDecimalPlaces.
  destruct (Z.ltb_spec n 0); [lia|].
  rewrite (toString_finite dl dr Hl Hr Hne).
  destruct (text_of_digits dl Hl) as (Hel & _).
  destruct (text_of_digits dr Hr) as (Her & Hnr & _).
  destruct (DigitText.explodeDigits_ok _ _ Hel) as (Hal & _).
  destruct (DigitText.explodeDigits_ok _ _ Her) as (Har & _).
  rewrite (DigitText.split_decimal _ _ Hal Har). cbn [hd_error].
  destruct (Z.eqb_spec 0 n); [lia|].
  unfold JS.length. rewrite Hnr. reflexivity.
Qed.

End WellFormed.



(** X22.  [toDecimalPlaces(n)] with fewer places than fractional digits
    keeps the first [n - 1] fractional digits and raises the digit at
    place [n] by one, whatever follows it; a 9 at that place is written
    as the two digits 1, 0, with no carry into the kept digits. *)
Theorem toDecimalPlaces_raises_last_digit :
  forall (negative : bool) (dl da db : list Digit) (d : Z),
    is_digits dl -> is_digits da -> is_digits db -> 0 <= d <= 9 ->
    dl <> [] -> db <> [] ->
    (List.length dl + List.length da + 1 + List.length db <= 34)%nat ->
    toDecimalPlaces (finite negative dl (da ++ d :: db)%list)
                    (Z.of_nat (List.length da) + 1)
    = Ok (finite false dl (da ++ digits_of_rounded (d + 1))%list).
Proof.
  intros negative dl da db d Hl Ha Hb Hd Hne Hneb Hlen.
  assert (Hr : is_digits (da ++ d :: db)%list).
  { unfold is_digits. apply Forall_app. split; [exact Ha|]. now constructor. }
  rewrite (toDecimalPlaces_start negative dl _ Hl Hr Hne) by lia.
  rewrite List.length_app. cbn [List.length].
  destruct (Z.leb_spec (Z.of_nat (List.length da + S (List.length db)))
                       (Z.of_nat (List.length da) + 1)) as [Hle|_].
  { destruct db; [congruence | cbn [List.length] in Hle; lia]. }
  destruct (text_of_digits da Ha) as (Hea & Hna & _).
  destruct (DigitText.digit_renders d Hd) as (c & Hc & Hi).
  replace (Z.of_nat (List.length da) + 1 - 1)
    with (Z.of_nat (String.length (JS.join da))) by lia.
  rewrite join_app, DigitText.join_cons, Hc. cbn [append].
  rewrite substring_prefix, charAt_after_prefix.
  rewrite (parseInt_digit_char c d Hi). cbn [JS.succ JS.to_string].
  destruct (text_of_digits dl Hl) as (Hel & Hnl & Hnel).
  assert (He : DigitString.explodeDigits (JS.join da ++ JS.Z_to_string (d + 1))
               = Ok (da ++ digits_of_rounded (d + 1))%list).
  { apply explodeDigits_app; [exact Hea | apply text_of_rounded; lia]. }
  destruct (DigitText.explodeDigits_ok _ _ He) as (_ & Hn' & _).
  pose proof (length_digits_of_rounded (d + 1)) as Hd1.
  rewrite List.length_app in Hn'.
  apply (Literals.decimal_literal false); auto.
  - intros E. rewrite E in Hn'. cbn in Hn'. lia.
  - destruct db; [congruence|]. unfold Digit in *. cbn [List.length] in *. lia.
Qed.

Lemma toDecimalPlaces_raises_last_digit_witness :
  toDecimalPlaces (finite false [3] ([3] ++ 9 :: [1])%list)
                  (Z.of_nat (List.length [3]) + 1)
  = Ok (finite false [3] ([3] ++ digits_of_rounded (9 + 1))%list).
Proof.
  apply (toDecimalPlaces_raises_last_digit false [3] [3] [1] 9);
    first [discriminate | cbn; lia | lia | repeat constructor; lia].
Defined.

End DecimalPlacesTheorems.

(** ** Comparison and the text helpers *)

Module ComparisonTheorems.
Import Common Decimal128 Shapes Automaton.
Import DigitStringTheorems.

Lemma digit_prefix_nonneg (s : string) :
  forall (acc : Z) (n : nat), 0 <= acc -> 0 <= fst (JS.digit_prefix s acc n).
Proof.
  induction s as [|c s IH]; intros acc n Hacc; cbn [JS.digit_prefix fst];
    [exact Hacc|].
  destruct (JS.is_digit c) eqn:Ec; [|exact Hacc].
  apply IH.
  assert (Hv : 0 <= JS.digit_value c).
  { apply DigitText.is_digit_cases in Ec. cbn [In digit_chars] in Ec.
    repeat (destruct Ec as [<- | Ec];
            [vm_compute; intro H0; discriminate H0|]).
    destruct Ec. }
  lia.
Qed.

(** [BigInt] of a text of decimal digits is a BigInt that is not
    negative. *)
Lemma BigInt_of_digits (s : string) :
  JS.all_digits s = true -> exists z, JS.BigInt s = Ok z /\ 0 <= z.
Proof.
  intros Hs. destruct s as [|c s]; [exists 0; split; [reflexivity | lia]|].
  pose proof Hs as Hs'. cbn in Hs'. apply andb_prop in Hs' as [Hc _].
  exists (fst (JS.digit_prefix (String c s) 0 0)). split.
  - apply DigitText.is_digit_cases in Hc. cbn [In digit_chars] in Hc.
    repeat (destruct Hc as [<- | Hc];
            [unfold JS.BigInt; rewrite Hs; now rewrite Z.mul_1_l|]).
    destruct Hc.
  - apply digit_prefix_nonneg. lia.
Qed.

Lemma all_digits_uint (u : Decimal.uint) :
  JS.all_digits (NilEmpty.string_of_uint u) = true.
Proof. induction u; cbn; auto. Qed.

(** The text of a number that is not negative is made of digits. *)
Lemma all_digits_Z_to_string (z : Z) :
  0 <= z -> JS.all_digits (JS.Z_to_string z) = true.
Proof.
  intros Hz. unfold JS.Z_to_string.
  destruct z as [|p|p]; [reflexivity | | lia].
  cbn [Z.to_int NilZero.string_of_int]. unfold NilZero.string_of_uint.
  destruct (Pos.to_uint p); try reflexivity; apply all_digits_uint.
Qed.

Lemma is_digits_app (a b : list Digit) :
  is_digits a -> is_digits b -> is_digits (a ++ b)%list.
Proof. intros Ha Hb. apply Forall_app. now split. Qed.

(** [toRational] does not raise on well-formed digits. *)
Lemma toRational_total (dl dr : list Digit) :
  is_digits dl -> is_digits dr ->
  exists q, DigitString.toRational (DigitString.mk dl dr) = Ok q.
Proof.
  intros Hl Hr.
  destruct (text_of_digits _ (is_digits_app dl dr Hl Hr)) as (He & _).
  destruct (DigitText.explodeDigits_ok _ _ He) as (Ha & _).
  destruct (BigInt_of_digits _ Ha) as (sig & Hsig & Hpos).
  unfold DigitString.toRational, DigitString.significand.
  cbn [DigitString.lhs DigitString.rhs]. rewrite Hsig. cbn [bind].
  set (exp := DigitString.exponent (DigitString.mk dl dr)).
  assert (Hexp : 0 <= exp) by (unfold exp, DigitString.exponent; lia).
  destruct (Z.ltb_spec exp 0); [lia|].
  destruct (DigitString.isPowerOfTen _) eqn:Ep.
  - destruct (exp =? 0); [eexists; reflexivity|].
    assert (Hz : JS.all_digits ("1" ++ JS.repeat "0" (Z.to_nat exp)) = true).
    { cbn. induction (Z.to_nat exp); cbn; auto. }
    destruct (BigInt_of_digits _ Hz) as (n & -> & _). eexists; reflexivity.
  - destruct (exp =? 1).
    + assert (Hz : JS.all_digits (JS.Z_to_string sig ++ "0") = true).
      { rewrite DigitText.all_digits_app, (all_digits_Z_to_string sig Hpos).
        reflexivity. }
      destruct (BigInt_of_digits _ Hz) as (n & -> & _). eexists; reflexivity.
    + destruct (sig =? 0); eexists; reflexivity.
Qed.

(** X23.  [cmp] does not look at the sign of a finite numeral: two
    finite numerals with the same well-formed digits compare equal,
    whatever their signs, so a numeral and its opposite are equal under
    [cmp]. *)
Theorem cmp_of_same_digits :
  forall (s1 s2 : bool) (dl dr : list Digit),
    is_digits dl -> is_digits dr ->
    cmp (finite s1 dl dr) (finite s2 dl dr) = Ok (Some 0).
Proof.
  intros s1 s2 dl dr Hl Hr.
  destruct (toRational_total dl dr Hl Hr) as (q & Hq).
  unfold cmp, toRational. cbn [finite isNaN isFinite digits negb orb].
  rewrite Hq. cbn [bind]. unfold Rational.cmp.
  now rewrite Z.sub_diag.
Qed.

Lemma cmp_of_same_digits_witness :
  cmp (finite true [1] [5]) (finite false [1] [5]) = Ok (Some 0).
Proof.
  apply (cmp_of_same_digits true false [1] [5]); repeat constructor; lia.
Defined.

(** *** The text helpers of the constructor *)

Lemma significand_rec_normal (fuel : nat) :
  forall s : string,
    (String.length s < fuel)%nat ->
    let r := significand_rec fuel s in
    JS.starts_with_minus r = false
    /\ JS.has_dot r = false
    /\ JS.starts_with_zero r = false
    /\ JS.match_trailing_zeros r = None
    /\ (String.length r <= String.length s)%nat.
Proof.
  induction fuel as [|fuel IH]; intros s Hlen; [lia|].
  cbn [significand_rec] in *.
  destruct (JS.starts_with_minus s) eqn:Em.
  { pose proof (SignificandTermination.length_substring_from s 1) as L.
    change (Z.of_nat 1) with 1 in L.
    pose proof (SignificandTermination.length_starts_with_minus s Em).
    destruct (IH (JS.substring_from s 1) ltac:(lia)) as (? & ? & ? & ? & ?).
    repeat split; auto; lia. }
  destruct (JS.starts_with_zero_dot s) eqn:Ez.
  { pose proof (SignificandTermination.length_substring_from s 2) as L.
    change (Z.of_nat 2) with 2 in L.
    pose proof (SignificandTermination.length_starts_with_zero_dot s Ez).
    destruct (IH (JS.substring_from s 2) ltac:(lia)) as (? & ? & ? & ? & ?).
    repeat split; auto; lia. }
  destruct (JS.has_dot s) eqn:Ed.
  { pose proof (SignificandTermination.length_remove_first_dot s Ed).
    destruct (IH (JS.remove_first_dot s) ltac:(lia)) as (? & ? & ? & ? & ?).
    repeat split; auto; lia. }
  destruct (JS.starts_with_zero s) eqn:E0.
  { pose proof (SignificandTermination.length_strip_leading_zeros s E0).
    destruct (IH (JS.strip_leading_zeros s) ltac:(lia)) as (? & ? & ? & ? & ?).
    repeat split; auto; lia. }
  destruct (JS.match_trailing_zeros s) as [m0|] eqn:Et.
  { pose proof (SignificandTermination.length_strip_trailing_zeros s m0 Et).
    destruct (IH (JS.strip_trailing_zeros s) ltac:(lia)) as (? & ? & ? & ? & ?).
    repeat split; auto; lia. }
  repeat split; auto.
Qed.

(** X24.  The text that [significand] returns is normalised, whatever
    the input: it has no leading minus sign, no point, no leading zero
    and no trailing zero, and it is no longer than the input. *)
Theorem significand_is_normalised :
  forall s : string,
    JS.starts_with_minus (significand s) = false
    /\ JS.has_dot (significand s) = false
    /\ JS.starts_with_zero (significand s) = false
    /\ JS.match_trailing_zeros (significand s) = None
    /\ (String.length (significand s) <= String.length s)%nat.
Proof.
  intros s. unfold significand.
  apply (significand_rec_normal (S (String.length s)) s). lia.
Qed.

End ComparisonTheorems.

(** ** Raising to a power *)

Module PowTheorems.
Import Common Decimal128 Shapes Reference.
Import DigitStringTheorems OperationTheorems.

Section Arithmetic.

Variable toDecimalPlaces : Rational.t -> Z -> string.

(** X25.  [pow] raises its type error exactly at the guard for an
    exponent that is NaN or an infinity; every finite exponent passes
    the guard, whatever its fractional digits, since [isInteger()] holds
    of every finite numeral. *)
Theorem pow_guard :
  forall (this n : t) (depth turns : nat),
    (isNaN n = true \/ isFinite n = false ->
     pow toDecimalPlaces (S depth) turns this n
     = Done (Throw (TypeError "Exponent must be an integer")))
    /\ (isNaN n = false -> isFinite n = true -> isInteger n = true).
Proof.
  intros this n depth turns. split.
  - intros H. cbn [pow]. unfold isInteger.
    destruct H as [-> | ->]; [reflexivity|].
    now rewrite andb_false_r.
  - intros Hn Hf. unfold isInteger. rewrite Hn, Hf. cbn [negb andb].
    apply Z.leb_le. unfold DigitString.exponent. lia.
Qed.

(** X26.  [pow] with a negative finite exponent that has well-formed
    digits and a fractional part never returns: the exponent stays
    negative under [negate], and the method calls itself until the call
    stack is exhausted. *)
Theorem pow_of_negative_exponent_overflows :
  forall (this : t) (dl dr : list Digit) (depth turns : nat),
    is_digits dl -> is_digits dr -> dl <> [] -> dr <> [] ->
    (List.length dl + List.length dr <= 34)%nat ->
    pow toDecimalPlaces depth turns this (finite true dl dr)
    = Done (Throw (RangeError "Maximum call stack size exceeded")).
Proof.
  intros this dl dr depth turns Hl Hr Hnel Hner Hlen.
  induction depth as [|depth IH]; [reflexivity|].
  cbn [pow].
  replace (isInteger (finite true dl dr)) with true
    by (symmetry; unfold isInteger; cbn; apply Z.leb_le;
        unfold DigitString.exponent; lia).
  cbn [negb finite isNegative]. fold (finite true dl dr).
  rewrite (negate_finite true dl dr Hl Hr Hnel Hlen).
  destruct dr as [|d0 dr']; [congruence|].
  now rewrite IH.
Qed.

(** [pow] with the exponent zero returns one without a turn of its
    loop, whatever the base: a NaN or an infinity to the power zero is
    one. *)
Lemma pow_zero_is_one :
  forall (this : t) (depth turns : nat),
    pow toDecimalPlaces (S depth) turns this (finite false [0] [])
    = Done (Ok (finite false [1] [])).
Proof.
  intros this depth turns. cbn [pow].
  change (isInteger (finite false [0] [])) with true. cbn [negb finite isNegative].
  change (new "1") with (Ok (finite false [1] [])).
  change (new "0") with (Ok (finite false [0] [])).
  destruct turns; reflexivity.
Qed.

End Arithmetic.

Lemma pow_guard_witness :
  pow (fun _ _ => "0") 1 0 (finite false [2] []) (infinity false)
  = Done (Throw (TypeError "Exponent must be an integer")).
Proof.
  apply (proj1 (pow_guard (fun _ _ => "0") (finite false [2] []) (infinity false) 0 0)).
  right. reflexivity.
Defined.

Lemma pow_of_negative_exponent_overflows_witness :
  pow (fun _ _ => "0") 500 10 (finite false [2] []) (finite true [1] [0])
  = Done (Throw (RangeError "Maximum call stack size exceeded")).
Proof.
  apply (pow_of_negative_exponent_overflows (fun _ _ => "0") (finite false [2] []) [1] [0]
           500 10);
    first [discriminate | cbn; lia | repeat constructor; lia].
Defined.

End PowTheorems.

(** ** Carrying from the right *)

Module CarryTheorems.
Import Common DigitString Shapes Automaton.

Lemma digit_prefix_snoc (t : string) (c : ascii) :
  JS.all_digits t = true -> JS.is_digit c = true ->
  forall (acc : Z) (n : nat),
    fst (JS.digit_prefix (t ++ String c "") acc n)
    = 10 * fst (JS.digit_prefix t acc n) + JS.digit_value c.
Proof.
  intros Ht Hc. induction t as [|x t IH]; intros acc n.
  - cbn. now rewrite Hc.
  - cbn in Ht. apply andb_prop in Ht as [Hx Ht].
    cbn [append JS.digit_prefix]. rewrite Hx. now apply IH.
Qed.

Lemma spelled_snoc (t : string) (c : ascii) :
  JS.all_digits t = true -> JS.is_digit c = true ->
  spelled (t ++ String c "") = 10 * spelled t + JS.digit_value c.
Proof. intros Ht Hc. now apply digit_prefix_snoc. Qed.

Lemma snoc_cases (s : string) :
  s <> "" -> exists t c, s = t ++ String c "".
Proof.
  induction s as [|x s IH]; [congruence|]. intros _.
  destruct s as [|y s].
  - now exists "", x.
  - destruct IH as (t & c & E); [discriminate|].
    exists (String x t), c. cbn. now rewrite E.
Qed.

Lemma length_snoc (t : string) (c : ascii) :
  JS.length (t ++ String c "") - 1 = Z.of_nat (String.length t).
Proof.
  unfold JS.length. rewrite DigitText.length_app. cbn [String.length]. lia.
Qed.

Lemma parseInt_digit (c : ascii) :
  JS.is_digit c = true -> JS.parseInt (String c "") = JS.JNum (JS.digit_value c).
Proof.
  intros H. apply DigitText.is_digit_cases in H. cbn [In digit_chars] in H.
  repeat (destruct H as [<- | H]; [reflexivity|]). destruct H.
Qed.

Lemma digit_value_range (c : ascii) :
  JS.is_digit c = true -> 0 <= JS.digit_value c <= 9.
Proof.
  intros H. apply DigitText.is_digit_cases in H. cbn [In digit_chars] in H.
  repeat (destruct H as [<- | H]; [vm_compute; split; discriminate|]).
  destruct H.
Qed.

Lemma BigInt_spelled (s : string) :
  JS.all_digits s = true -> s <> "" -> JS.BigInt s = Ok (spelled s).
Proof.
  intros Hs Hne. destruct s as [|c s]; [congruence|].
  pose proof Hs as Hs'. cbn in Hs'. apply andb_prop in Hs' as [Hc _].
  apply DigitText.is_digit_cases in Hc. cbn [In digit_chars] in Hc.
  repeat (destruct Hc as [<- | Hc];
          [unfold JS.BigInt, spelled; rewrite Hs; now rewrite Z.mul_1_l|]).
  destruct Hc.
Qed.

(** One call on a text of digits that ends in the digit [c]. *)
Lemma carry_step (fuel : nat) (t : string) (c : ascii) :
  JS.all_digits t = true -> JS.is_digit c = true ->
  propagateCarryFromRight_rec (S fuel) (t ++ String c "")
  = if JS.digit_value c =? 9 then
      match t with
      | EmptyString => "10"
      | _ => propagateCarryFromRight_rec fuel t ++ "0"
      end
    else t ++ JS.Z_to_string (JS.digit_value c + 1).
Proof.
  intros Ht Hc.
  assert (Hs : JS.all_digits (t ++ String c "") = true)
    by (rewrite DigitText.all_digits_app, Ht; cbn; now rewrite Hc).
  cbn [propagateCarryFromRight_rec].
  rewrite (DigitText.split_no_dot _ (DigitText.all_digits_no_dot _ Hs)).
  cbn [hd_error]. rewrite length_snoc.
  rewrite DecimalPlacesTheorems.charAt_after_prefix,
    DecimalPlacesTheorems.substring_prefix, (parseInt_digit c Hc).
  cbn [JS.eqb JS.succ JS.to_string].
  destruct (JS.digit_value c =? 9); [|reflexivity].
  destruct t as [|x t]; [reflexivity|].
  replace (1 =? JS.length (String x t ++ String c "")) with false;
    [reflexivity|].
  symmetry. apply Z.eqb_neq. unfold JS.length.
  rewrite DigitText.length_app. cbn [String.length]. lia.
Qed.

(** On a text of digits, [propagateCarryFromRight] gives a text of
    digits that spells the next number. *)
Lemma carry_on_integer (fuel : nat) :
  forall s : string,
    (String.length s < fuel)%nat -> JS.all_digits s = true -> s <> "" ->
    JS.all_digits (propagateCarryFromRight_rec fuel s) = true
    /\ propagateCarryFromRight_rec fuel s <> ""
    /\ spelled (propagateCarryFromRight_rec fuel s) = spelled s + 1.
Proof.
  induction fuel as [|fuel IH]; intros s Hlen Hs Hne; [lia|].
  destruct (snoc_cases s Hne) as (t & c & ->).
  rewrite DigitText.all_digits_app in Hs. apply andb_prop in Hs as [Ht Hc].
  cbn in Hc. rewrite andb_true_r in Hc.
  rewrite (carry_step fuel t c Ht Hc), (spelled_snoc t c Ht Hc).
  pose proof (digit_value_range c Hc) as Hd.
  destruct (Z.eqb_spec (JS.digit_value c) 9) as [E9 | N9].
  - destruct t as [|x t].
    + rewrite E9. repeat split; first [discriminate | reflexivity].
    + rewrite DigitText.length_app in Hlen. cbn [String.length] in Hlen.
      destruct (IH (String x t)) as (Ha & Hn & Hv);
        [cbn [String.length]; lia | exact Ht | discriminate |].
      repeat split.
      * rewrite DigitText.all_digits_app, Ha. reflexivity.
      * destruct (propagateCarryFromRight_rec fuel (String x t));
          [congruence | discriminate].
      * rewrite (spelled_snoc _ "0" Ha eq_refl), Hv, E9.
        change (JS.digit_value "0") with 0. lia.
  - destruct (DigitText.digit_renders (JS.digit_value c + 1) ltac:(lia))
      as (c' & Hc' & Hi').
    destruct (DigitText.integerCharToDigit_ok c' _ Hi') as (Hd' & _ & _ & Hv').
    rewrite Hc'. repeat split.
    + rewrite DigitText.all_digits_app, Ht. cbn. now rewrite Hd'.
    + destruct t; discriminate.
    + rewrite (spelled_snoc t c' Ht Hd'), <- Hv'. lia.
Qed.

(** On a text of digits the counter never runs out: two counters above
    the length of the text give the same result. *)
Lemma carry_fuel_irrelevant (f1 : nat) :
  forall (s : string) (f2 : nat),
    JS.all_digits s = true -> s <> "" ->
    (String.length s < f1)%nat -> (String.length s < f2)%nat ->
    propagateCarryFromRight_rec f1 s = propagateCarryFromRight_rec f2 s.
Proof.
  induction f1 as [|f1 IH]; intros s f2 Hs Hne H1 H2; [lia|].
  destruct f2 as [|f2]; [lia|].
  destruct (snoc_cases s Hne) as (t & c & ->).
  rewrite DigitText.all_digits_app in Hs. apply andb_prop in Hs as [Ht Hc].
  cbn in Hc. rewrite andb_true_r in Hc.
  rewrite !(carry_step _ t c Ht Hc).
  destruct (JS.digit_value c =? 9); [|reflexivity].
  destruct t as [|x t]; [reflexivity|].
  rewrite DigitText.length_app in H1, H2. cbn [String.length] in H1, H2.
  rewrite (IH (String x t) f2); [reflexivity | exact Ht | discriminate | |];
    cbn [String.length]; lia.
Qed.

(** X27.  On a text of decimal digits, [propagateCarryFromRight] returns
    the digits of the next number: the carry runs through the trailing
    nines, and a text of nines alone grows by one digit. *)
Theorem propagateCarryFromRight_increments :
  forall s : string,
    JS.all_digits s = true -> s <> "" ->
    JS.BigInt (propagateCarryFromRight s)
    = (z <- JS.BigInt s ;; Ok (z + 1)).
Proof.
  intros s Hs Hne.
  destruct (carry_on_integer (S (String.length s)) s ltac:(lia) Hs Hne)
    as (Ha & Hn & Hv).
  unfold propagateCarryFromRight.
  rewrite (BigInt_spelled _ Ha Hn), (BigInt_spelled s Hs Hne), Hv.
  reflexivity.
Qed.

Lemma propagateCarryFromRight_increments_witness :
  JS.BigInt (propagateCarryFromRight "1999")
  = (z <- JS.BigInt "1999" ;; Ok (z + 1)).
Proof.
  apply (propagateCarryFromRight_increments "1999");
    [reflexivity | discriminate].
Defined.

(** X28.  With one fractional digit, [propagateCarryFromRight] adds one
    to the integer part and writes the fraction as a single zero,
    whatever the fractional digit was. *)
Theorem propagateCarryFromRight_one_fraction_digit :
  forall (l : string) (c : ascii),
    JS.all_digits l = true -> JS.is_digit c = true ->
    propagateCarryFromRight (l ++ "." ++ String c "")
    = propagateCarryFromRight l ++ ".0".
Proof.
  intros l c Hl Hc. unfold propagateCarryFromRight at 1.
  cbn [propagateCarryFromRight_rec].
  assert (Hr : JS.all_digits (String c "") = true) by (cbn; now rewrite Hc).
  rewrite (DigitText.split_decimal l (String c "") Hl Hr).
  cbn [hd_error]. change (JS.length (String c "")) with 1.
  change (1 =? 1) with true. cbn iota. f_equal.
  destruct l as [|x l]; [reflexivity|].
  unfold propagateCarryFromRight.
  apply carry_fuel_irrelevant; [exact Hl | discriminate | | lia].
  rewrite DigitText.length_app. cbn [String.length append]. lia.
Qed.

Lemma propagateCarryFromRight_one_fraction_digit_witness :
  propagateCarryFromRight ("19" ++ "." ++ String "2" "")
  = propagateCarryFromRight "19" ++ ".0".
Proof.
  apply (propagateCarryFromRight_one_fraction_digit "19" "2"); reflexivity.
Defined.

End CarryTheorems.

(** ** Exponential notation *)

Module ExponentialTheorems.
Import Common Decimal128 Shapes Automaton AutomatonFacts.
Import DigitStringTheorems.

Lemma nonzero_is_digit (c : ascii) :
  In c nonzero_chars -> In c digit_chars /\ JS.is_digit c = true.
Proof.
  cbn. intros H.
  repeat (destruct H as [<- | H]; [split; [tauto | reflexivity]|]).
  destruct H.
Qed.

Lemma nonzero_first_digits (s : string) :
  is_nonzero_first s ->
  JS.all_digits s = true /\ s <> "" /\ JS.starts_with_minus s = false.
Proof.
  destruct s as [|c s]; [intros []|]. intros [Hc Hs].
  destruct (nonzero_is_digit c Hc) as [_ Hd]. repeat split.
  - cbn. now rewrite Hd, Hs.
  - discriminate.
  - now apply Literals.starts_with_minus_digit.
Qed.

Lemma grammars_well_run_exponential :
  forallb well_run_exponential grammars = true.
Proof. vm_compute. reflexivity. Qed.

Lemma stay_in (B : list Regex.regex) :
  goes digit_chars B B = true ->
  forall (s : string) (r : Regex.regex),
    JS.all_digits s = true -> In r B -> In (after r s) B.
Proof.
  intros HBB. induction s as [|c s IH]; intros r Hs Hr; [exact Hr|].
  cbn in Hs. apply andb_prop in Hs as [Hc Hs]. cbn.
  apply IH; [exact Hs|].
  apply (goes_sound _ _ _ HBB); [now apply DigitText.is_digit_cases | exact Hr].
Qed.

(** Where each grammar stands after an exponential literal without
    signs. *)
Lemma after_exponential (R : Regex.regex) (m k : string) (e : ascii) :
  In R grammars -> is_nonzero_first m -> is_nonzero_first k -> In e e_chars ->
  In (after R (m ++ String e k)) (exponent_states R).
Proof.
  intros HR Hm Hk He.
  pose proof grammars_well_run_exponential as H. rewrite forallb_forall in H.
  specialize (H R HR). unfold well_run_exponential in H.
  do 4 (apply andb_prop in H as [H ?]).
  destruct m as [|c m]; [destruct Hm|]. destruct Hm as [Hc Hm].
  destruct k as [|c2 k]; [destruct Hk|]. destruct Hk as [Hc2 Hk].
  cbn [append after]. rewrite after_app. cbn [after].
  apply stay_in; [assumption | exact Hk |].
  apply (goes_sound nonzero_chars (marker_states R)); [assumption | exact Hc2 |].
  apply (goes_sound e_chars (mantissa_states R)); [assumption | exact He |].
  apply stay_in; [assumption | exact Hm |].
  apply (goes_sound nonzero_chars [R]); [assumption | exact Hc | now left].
Qed.

Lemma new_exponential (m k : string) (e : ascii) :
  is_nonzero_first m -> is_nonzero_first k -> In e e_chars ->
  new (m ++ String e k)
  = (data <- handleExponentialNotation (m ++ String e k) ;;
     _ <- validateConstructorData data ;; Ok data).
Proof.
  intros Hm Hk He. destruct in_grammars as (Hn & Hx & _).
  unfold new. rewrite !matches_after.
  rewrite (none_nullable (exponent_states nanRegExp));
    [| vm_compute; reflexivity | now apply after_exponential].
  rewrite (all_nullable (exponent_states exponentRegExp));
    [| vm_compute; reflexivity | now apply after_exponential].
  reflexivity.
Qed.

Lemma digits_have_no_marker (s : string) (r : string) (e : ascii) :
  JS.all_digits s = true -> JS.all_digits r = true -> In e e_chars ->
  JS.split_on JS.is_e (s ++ String e r) = (s, [r]).
Proof.
  intros Hs Hr He.
  assert (Hno : forall u : string, JS.all_digits u = true ->
                                   JS.split_on JS.is_e u = (u, [])).
  { induction u as [|c u IH]; [reflexivity|]. cbn. intros H.
    apply andb_prop in H as [Hc Hu]. rewrite (IH Hu).
    apply DigitText.is_digit_cases in Hc. cbn in Hc.
    repeat (destruct Hc as [<- | Hc]; [reflexivity|]). destruct Hc. }
  induction s as [|c s IH].
  - cbn [append JS.split_on]. rewrite (Hno r Hr).
    unfold e_chars in He. cbn [In] in He.
    destruct He as [<- | [<- | []]]; reflexivity.
  - cbn in Hs. apply andb_prop in Hs as [Hc Hs].
    cbn [append JS.split_on]. rewrite (IH Hs).
    apply DigitText.is_digit_cases in Hc. cbn in Hc.
    repeat (destruct Hc as [<- | Hc]; [reflexivity|]). destruct Hc.
Qed.

Lemma digit_prefix_counts (s : string) :
  forall (acc : Z) (n : nat), (n <= snd (JS.digit_prefix s acc n))%nat.
Proof.
  induction s as [|c s IH]; intros acc n; cbn [JS.digit_prefix snd]; [lia|].
  destruct (JS.is_digit c); [|cbn [snd]; lia].
  specialize (IH (10 * acc + JS.digit_value c) (S n)). lia.
Qed.

(** [parseInt] of a text of digits is the number that the text
    spells. *)
Lemma parseInt_spelled (k : string) :
  JS.all_digits k = true -> k <> "" -> JS.parseInt k = JS.JNum (spelled k).
Proof.
  intros Hk Hne. destruct k as [|c k]; [congruence|].
  pose proof Hk as Hk'. cbn in Hk'. apply andb_prop in Hk' as [Hc _].
  assert (Hbody : match JS.digit_prefix (String c k) 0 0 with
                  | (_, O) => JS.JNaN
                  | (v, _) => JS.JNum (1 * v)
                  end = JS.JNum (spelled (String c k))).
  { unfold spelled.
    pose proof (digit_prefix_counts k (10 * 0 + JS.digit_value c) 1) as Hn.
    cbn [JS.digit_prefix] in *. rewrite Hc in *.
    destruct (JS.digit_prefix k (10 * 0 + JS.digit_value c) 1) as [v [|n]];
      cbn [snd fst] in *; [lia|]. now rewrite Z.mul_1_l. }
  apply DigitText.is_digit_cases in Hc. cbn [In digit_chars] in Hc.
  repeat (destruct Hc as [<- | Hc]; [exact Hbody|]). destruct Hc.
Qed.

Lemma spelled_nonzero_first (k : string) :
  is_nonzero_first k -> 1 <= spelled k.
Proof.
  destruct k as [|c k]; [intros []|]. intros [Hc Hk].
  unfold spelled. cbn [JS.digit_prefix].
  destruct (nonzero_is_digit c Hc) as [_ ->].
  assert (Hmono : forall s acc n, 1 <= acc ->
                    1 <= fst (JS.digit_prefix s acc n)).
  { induction s as [|x s IH]; intros acc n Hacc; cbn [JS.digit_prefix fst];
      [exact Hacc|].
    destruct (JS.is_digit x) eqn:Ex; [|exact Hacc].
    apply IH. pose proof (CarryTheorems.digit_value_range x Ex). lia. }
  apply Hmono. cbn in Hc.
  repeat (destruct Hc as [<- | Hc]; [vm_compute; discriminate|]). destruct Hc.
Qed.

Lemma explodeDigits_zeros (z : nat) :
  DigitString.explodeDigits (JS.repeat "0" z) = Ok (List.repeat 0 z).
Proof.
  induction z as [|z IH]; [reflexivity|].
  cbn [JS.repeat List.repeat append].
  rewrite DigitText.explodeDigits_cons, IH. reflexivity.
Qed.

Lemma length_zeros (z : nat) : String.length (JS.repeat "0" z) = z.
Proof. induction z as [|z IH]; cbn; [reflexivity | now rewrite IH]. Qed.

Lemma substring_from_after_prefix (a b : string) :
  JS.substring_from (a ++ b) (Z.of_nat (String.length a)) = b.
Proof.
  unfold JS.substring_from, JS.substring, JS.clamp, JS.length.
  rewrite DigitText.length_app.
  set (n := String.length a). set (m := String.length b).
  replace (Z.max 0 (Z.min (Z.of_nat n) (Z.of_nat (n + m))))
    with (Z.of_nat n) by lia.
  replace (Z.max 0 (Z.min (Z.of_nat (n + m)) (Z.of_nat (n + m))))
    with (Z.of_nat (n + m)) by lia.
  replace (Z.min (Z.of_nat n) (Z.of_nat (n + m))) with (Z.of_nat n) by lia.
  replace (Z.max (Z.of_nat n) (Z.of_nat (n + m)))
    with (Z.of_nat (n + m)) by lia.
  replace (Z.of_nat (n + m) - Z.of_nat n) with (Z.of_nat m) by lia.
  rewrite !Nat2Z.id. subst n m.
  induction a as [|c a IH]; cbn [append String.length String.substring].
  - apply SignificandTermination.substring_all.
  - exact IH.
Qed.

(** What [convertExponentialStringToDecimalString] does with a literal
    without signs. *)
Lemma convert_unsigned (m k : string) (e : ascii) :
  is_nonzero_first m -> is_nonzero_first k -> In e e_chars ->
  convertExponentialStringToDecimalString (m ++ String e k)
  = if JS.length m <=? spelled k
    then m ++ JS.repeat "0" (Z.to_nat (spelled k - JS.length m))
    else JS.substring m 0 (spelled k) ++ "." ++ JS.substring_from m (spelled k).
Proof.
  intros Hm Hk He.
  destruct (nonzero_first_digits m Hm) as (Ham & _).
  destruct (nonzero_first_digits k Hk) as (Hak & Hnek & _).
  pose proof (spelled_nonzero_first k Hk) as H1.
  unfold convertExponentialStringToDecimalString.
  rewrite (digits_have_no_marker m k e Ham Hak He). cbn [hd_error].
  rewrite (parseInt_spelled k Hak Hnek).
  destruct (Z.ltb_spec (spelled k) 0); [lia|].
  destruct (Z.eqb_spec 0 (spelled k)); [lia|]. reflexivity.
Qed.

(** X29.  An exponential literal without signs whose exponent [e] is at
    least the number of mantissa digits builds the integer made of the
    mantissa digits padded with zeros up to [e] digits in all: the
    exponent counts the digits of the result, not the zeros to
    append. *)
Theorem exponential_literal_is_padded :
  forall (m k : string) (e : ascii) (dm : list Digit) (z : nat),
    is_nonzero_first m -> is_nonzero_first k -> In e e_chars ->
    DigitString.explodeDigits m = Ok dm ->
    spelled k = Z.of_nat (String.length m + z) ->
    (String.length m + z <= 34)%nat ->
    new (m ++ String e k) = Ok (finite false (dm ++ List.repeat 0 z)%list []).
Proof.
  intros m k e dm z Hm Hk He Hdm Hspell Hlen.
  destruct (nonzero_first_digits m Hm) as (Ham & Hnem & _).
  rewrite (new_exponential m k e Hm Hk He).
  unfold handleExponentialNotation.
  rewrite (convert_unsigned m k e Hm Hk He), Hspell.
  unfold JS.length.
  destruct (Z.leb_spec (Z.of_nat (String.length m))
                       (Z.of_nat (String.length m + z))); [|lia].
  replace (Z.to_nat (Z.of_nat (String.length m + z)
                     - Z.of_nat (String.length m))) with z by lia.
  assert (He' : DigitString.explodeDigits (m ++ JS.repeat "0" z)
                = Ok (dm ++ List.repeat 0 z)%list)
    by (apply explodeDigits_app; [exact Hdm | apply explodeDigits_zeros]).
  assert (Hne' : m ++ JS.repeat "0" z <> "")
    by (destruct m; [congruence | discriminate]).
  pose proof (Literals.handle_integer false _ _ He' Hne') as Hh.
  cbn [sign append] in Hh. rewrite Hh. cbn [bind].
  rewrite Literals.validate_finite.
  destruct (DigitText.explodeDigits_ok _ _ He') as (_ & Hn & _).
  unfold DigitString.countSignificantDigits, MAX_SIGNIFICANT_DIGITS.
  cbn [DigitString.lhs DigitString.rhs List.length]. rewrite Hn.
  rewrite DigitText.length_app, length_zeros.
  destruct (Z.ltb_spec 34 (Z.of_nat (String.length m + z) + Z.of_nat 0));
    [lia | reflexivity].
Qed.

Lemma exponential_literal_is_padded_witness :
  new ("12" ++ String "e" "3") = Ok (finite false ([1; 2] ++ List.repeat 0 1)%list []).
Proof.
  apply (exponential_literal_is_padded "12" "3" "e" [1; 2] 1);
    first [reflexivity | cbn; lia | cbn; tauto].
Defined.

(** X30.  An exponential literal without signs whose exponent [e] is
    smaller than the number of mantissa digits builds the numeral with
    the first [e] mantissa digits as integer part and the others as
    fractional part. *)
Theorem exponential_literal_is_split :
  forall (a b k : string) (e : ascii) (da db : list Digit),
    is_nonzero_first a -> b <> "" -> is_nonzero_first k -> In e e_chars ->
    DigitString.explodeDigits a = Ok da ->
    DigitString.explodeDigits b = Ok db ->
    spelled k = Z.of_nat (String.length a) ->
    (String.length a + String.length b <= 34)%nat ->
    new ((a ++ b) ++ String e k) = Ok (finite false da db).
Proof.
  intros a b k e da db Ha Hneb Hk He Hda Hdb Hspell Hlen.
  destruct (nonzero_first_digits a Ha) as (Haa & Hnea & _).
  destruct (DigitText.explodeDigits_ok b db Hdb) as (Hab & _).
  assert (Hm : is_nonzero_first (a ++ b)).
  { destruct a as [|c a]; [destruct Ha|]. destruct Ha as [Hc Ha'].
    cbn [append is_nonzero_first]. split; [exact Hc|].
    now rewrite DigitText.all_digits_app, Ha', Hab. }
  rewrite (new_exponential (a ++ b) k e Hm Hk He).
  unfold handleExponentialNotation.
  rewrite (convert_unsigned (a ++ b) k e Hm Hk He), Hspell.
  unfold JS.length at 1. rewrite DigitText.length_app.
  destruct (Z.leb_spec (Z.of_nat (String.length a + String.length b))
                       (Z.of_nat (String.length a))) as [Hle|_].
  { destruct b; [congruence | cbn [String.length] in Hle; lia]. }
  rewrite DecimalPlacesTheorems.substring_prefix, substring_from_after_prefix.
  pose proof (Literals.handle_decimal_short false a b da db Hda Hdb Hnea Hneb
                Hlen) as Hh.
  change (sign false ++ a ++ "." ++ b) with (a ++ "." ++ b) in Hh.
  rewrite Hh. cbn [bind].
  rewrite Literals.validate_finite.
  destruct (DigitText.explodeDigits_ok a da Hda) as (_ & Hna & _).
  destruct (DigitText.explodeDigits_ok b db Hdb) as (_ & Hnb & _).
  unfold DigitString.countSignificantDigits, MAX_SIGNIFICANT_DIGITS.
  cbn [DigitString.lhs DigitString.rhs]. rewrite Hna, Hnb.
  destruct (Z.ltb_spec 34 (Z.of_nat (String.length a)
                           + Z.of_nat (String.length b)));
    [lia | reflexivity].
Qed.

Lemma exponential_literal_is_split_witness :
  new (("12" ++ "5") ++ String "E" "2") = Ok (finite false [1; 2] [5]).
Proof.
  apply (exponential_literal_is_split "12" "5" "2" "E" [1; 2] [5]);
    first [reflexivity | discriminate | cbn; lia | cbn; tauto].
Defined.

End ExponentialTheorems.
